(** * Document lifecycle manager of the LinShare / OnlyOffice backend

    A shallow embedding of [src/lib/document.js].  The source file comes in
    two versions of the [Document] class: the earlier one (module [Legacy]
    below, "simpler variant") and the later, security-hardened one (module
    [Hardened]).  Asynchronous methods are embedded in a state-and-exception
    monad over the pair of the receiver object ([this]) and the outside
    world (metadata store, cache directory, remote storage gateway, key
    generator), and every external call is logged in a trace so that
    ordering properties can be stated. *)

From Stdlib Require Import ZArith.
From stdpp Require Import gmap strings pretty list fin_maps.

Open Scope string_scope.
Open Scope Z_scope.

(** ** JavaScript values used by the class *)

(** Modelled from the spec: [DOCUMENT_STATES] of [./constants], which is not
    part of the sources; the spec lists the three states. *)
Inductive DocState := downloading | downloaded | removed.

#[global] Instance DocState_eq_dec : EqDecision DocState.
Proof. solve_decision. Defined.

(** Modelled from the spec: [PUBSUB_EVENTS] of [./constants]; the spec names
    the two event kinds [document-downloaded] and
    [document-download-failed]. *)
Inductive Topic := DOCUMENT_DOWNLOADED | DOCUMENT_DOWNLOAD_FAILED.

(** An error object as the class inspects it: [error.response.status]. *)
Record Response := mkResponse { status : option Z }.
Record JsError := mkError { message : string; response : option Response }.

(** [new Error(msg)] *)
Definition Error (msg : string) : JsError := mkError msg None.

(** [error.response && error.response.status && error.response.status === 404] *)
Definition is_not_found (error : JsError) : bool :=
  match response error with
  | None => false
  | Some r =>
      match status r with
      | None => false
      | Some st => negb (st =? 0) && (st =? 404)
      end
  end.

(** Template literals print an undefined property as the text "undefined". *)
Definition interpolate (v : option string) : string :=
  match v with Some s => s | None => "undefined" end.

Record User := mkUser { mail : string; firstName : string; lastName : string }.

(** A node as returned by the remote storage gateway ([getNode]). *)
Record Node := mkNode {
  node_uuid : string;
  node_workGroup : string;
  node_name : string;
  node_parent : string;
  node_size : Z;
  node_modificationDate : Z
}.

(** ** The two versions of the receiver object *)

(** Fields of [this] in the earlier version of the class. *)
Record LegacyDocument := mkLegacyDocument {
  l_uuid : string;
  l_workGroup : string;
  l_filePath : string;
  l_state : option DocState;
  l_name : option string;
  l_parent : option string;
  l_size : option Z;
  l_modificationDate : option Z;
  l_fileType : option string;
  l_documentType : option string
}.

(** Fields of [this] in the hardened version of the class. *)
Record Document := mkDocument {
  uuid : string;
  workGroup : string;
  user : User;
  filePath : string;
  state : option DocState;
  key : option string;
  name : option string;
  parent : option string;
  size : option Z;
  modificationDate : option Z;
  fileType : option string;
  documentType : option string;
  downloadUrlPath : option string;
  callbackUrlPath : option string
}.

(** ** Metadata store, cache, remote gateway *)

(** A record of the metadata store: lifecycle state, access key and the
    denormalized snapshot of the remote metadata. *)
Record FileRec := mkFileRec {
  rec_state : option DocState;
  rec_key : option string;
  rec_workGroup : string;
  rec_name : option string;
  rec_size : option Z;
  rec_modificationDate : option Z
}.

(** The object literal handed to [Files.updateByUuid]: [{ state }] or
    [{ state, key }]. *)
Record Patch := mkPatch { patch_state : option DocState; patch_key : option string }.

Definition apply_patch (p : Patch) (r : FileRec) : FileRec :=
  mkFileRec
    (match patch_state p with Some s => Some s | None => rec_state r end)
    (match patch_key p with Some k => Some k | None => rec_key r end)
    (rec_workGroup r) (rec_name r) (rec_size r) (rec_modificationDate r).

(** External calls, as they appear in the trace. *)
Inductive Call :=
| GetNode (wg id : string)
| DownloadDocument (wg id : string)
| CreateDocumentFromUrl (wg url : string) (fileName parent : option string)
| VerifyUserEditPermission (u : User) (wg : string)
| FilesGetByUuid (id : string)
| FilesUpdateByUuid (id : string) (p : Patch)
| FilesCreate (id : string) (r : FileRec)
| FilesRemoveByUuid (id : string)
| WriteFile (path : string) (data : list Byte.byte)
| DeleteFile (path : string)
| Publish (t : Topic) (document : Document) (error : option JsError).

(** A call together with its outcome: [true] when it returned, [false]
    when it threw. *)
Record Event := mkEvent { ev_call : Call; ev_ok : bool }.

(** A scheduled failure of a call to the store, to the file system or to
    [createDocumentFromUrl]: the error it throws and, for a failed
    [writeFile], the bytes it may leave behind ([fault_residue]). *)
Record Fault := mkFault { fault_error : JsError; fault_residue : option (list Byte.byte) }.

Inductive Reply (A : Type) := Resolves (a : A) | Rejects (e : JsError).
Arguments Resolves {A} a.
Arguments Rejects {A} e.

(** The world outside the object: the metadata store (by identifier), the
    cache directory (by path), the number of uuids generated so far, the
    outcomes scheduled for the coming store and file-system calls ([None],
    or an exhausted schedule, lets the call succeed), the replies of the
    remote gateways, and the trace of the calls made so far. *)
Record World := mkWorld {
  store : gmap string FileRec;
  cache : gmap string (list Byte.byte);
  uuids : nat;
  faults : list (option Fault);
  node_reply : string -> string -> Reply Node;
  bytes_reply : string -> string -> Reply (list Byte.byte);
  permission_reply : User -> string -> Reply bool;
  trace : list Event
}.

Definition set_store (f : gmap string FileRec -> gmap string FileRec) (w : World) : World :=
  mkWorld (f (store w)) (cache w) (uuids w) (faults w)
          (node_reply w) (bytes_reply w) (permission_reply w) (trace w).

Definition set_cache (f : gmap string (list Byte.byte) -> gmap string (list Byte.byte))
  (w : World) : World :=
  mkWorld (store w) (f (cache w)) (uuids w) (faults w)
          (node_reply w) (bytes_reply w) (permission_reply w) (trace w).

Definition set_uuids (n : nat) (w : World) : World :=
  mkWorld (store w) (cache w) n (faults w)
          (node_reply w) (bytes_reply w) (permission_reply w) (trace w).

Definition set_faults (fs : list (option Fault)) (w : World) : World :=
  mkWorld (store w) (cache w) (uuids w) fs
          (node_reply w) (bytes_reply w) (permission_reply w) (trace w).

Definition log (c : Call) (ok : bool) (w : World) : World :=
  mkWorld (store w) (cache w) (uuids w) (faults w)
          (node_reply w) (bytes_reply w) (permission_reply w)
          (trace w ++ [mkEvent c ok]).

(** ** Asynchronous methods *)

Inductive Completion (A : Type) := Returned (a : A) | Thrown (e : JsError).
Arguments Returned {A} a.
Arguments Thrown {A} e.

(** A method of a class whose receiver has type [T]. *)
Definition Method (T A : Type) : Type := T * World -> Completion A * (T * World).

Definition ret {T A} (a : A) : Method T A := fun s => (Returned a, s).

Definition throw {T A} (e : JsError) : Method T A := fun s => (Thrown e, s).

Definition bind {T A B} (m : Method T A) (k : A -> Method T B) : Method T B :=
  fun s =>
    match m s with
    | (Returned a, s') => k a s'
    | (Thrown e, s') => (Thrown e, s')
    end.

(** [try { m } catch (error) { h error }] *)
Definition try_catch {T A} (m : Method T A) (h : JsError -> Method T A) : Method T A :=
  fun s =>
    match m s with
    | (Returned a, s') => (Returned a, s')
    | (Thrown e, s') => h e s'
    end.

Notation "'await' x <- m ; k" := (bind m (fun x => k))
  (at level 10, x name, m at level 100, k at level 200).
Notation "m ;; k" := (bind m (fun _ => k))
  (at level 100, k at level 200, right associativity).

(** Reading a property of [this], and assigning to [this]. *)
Definition read {T A} (f : T -> A) : Method T A := fun s => (Returned (f (fst s)), s).
Definition self {T} : Method T T := fun s => (Returned (fst s), s).
Definition assign {T} (f : T -> T) : Method T unit := fun s => (Returned tt, (f (fst s), snd s)).

(** The next scheduled outcome of a local call. *)
Definition next_fault (w : World) : option Fault := hd None (faults w).
Definition consume (w : World) : World := set_faults (tl (faults w)) w.

(** A scheduled call returning nothing: it either throws the scheduled
    error (with effect [on_fail]) or performs [effect]. *)
Definition local_call {T} (c : Call) (effect : World -> World)
  (on_fail : Fault -> World -> World) : Method T unit :=
  fun s =>
    let w := snd s in
    match next_fault w with
    | Some f => (Thrown (fault_error f), (fst s, log c false (on_fail f (consume w))))
    | None => (Returned tt, (fst s, log c true (effect (consume w))))
    end.

(** A call to a remote gateway: it returns or throws what the gateway
    replies. *)
Definition remote_call {T A} (c : Call) (r : World -> Reply A) : Method T A :=
  fun s =>
    let w := snd s in
    match r w with
    | Resolves a => (Returned a, (fst s, log c true w))
    | Rejects e => (Thrown e, (fst s, log c false w))
    end.

(** A scheduled call returning a value read from the world. *)
Definition local_query {T A} (c : Call) (result : World -> A) : Method T A :=
  fun s =>
    let w := snd s in
    match next_fault w with
    | Some f => (Thrown (fault_error f), (fst s, log c false (consume w)))
    | None => (Returned (result w), (fst s, log c true (consume w)))
    end.

(** ** Collaborators that are outside the sources *)

(** Options of [config.get('documentServer.signature.browser')]. *)
Record SignatureConfig := mkSignatureConfig {
  enable : bool;
  secret : string;
  algorithm : string;
  expiresIn : string
}.

(** The object handed to the document server (without the token). *)
Record Payload := mkPayload {
  pl_fileType : option string;
  pl_title : option string;
  pl_url : string;
  pl_key : option string;
  pl_documentType : option string;
  pl_user_id : string;
  pl_user_name : string;
  pl_callbackUrl : string;
  pl_forcesave : bool
}.

Record SignedPayload := mkSignedPayload { payload : Payload; token : option string }.

(** Everything the class takes from its environment and whose code is not
    part of the sources: the uuid generator, [path.join], the helpers of
    [./helpers], the configuration, the token signer and
    [Files.removeByUuid] (used by the earlier version only; the sources do
    not show what it does to the record, so its effect on the store is kept
    abstract). *)
Class Platform := mkPlatform {
  uuid_at : nat -> string;
  path_join : string -> string -> string;
  STORAGE_DIR : string;
  getFileExtension : string -> string;
  getFileType : string -> string;
  EDITABLE_EXTENSIONS : list string;
  webserver_baseUrl : string;
  signature_browser : SignatureConfig;
  generateToken : Payload -> string -> string -> string -> string;
  removeByUuid_effect : string -> gmap string FileRec -> gmap string FileRec
}.

Section Collaborators.
Context `{Platform} {T : Type}.

(** [uuidV4()]: the n-th call returns [uuid_at n]. *)
Definition uuidV4 : Method T string :=
  fun s => (Returned (uuid_at (uuids (snd s))), (fst s, set_uuids (S (uuids (snd s))) (snd s))).

(** Modelled from the spec: the module [../lib/files] (the Metadata Store) is
    not part of the sources.  The spec describes a durable key-value record
    keyed by document identifier, created once and mutated in place
    thereafter; [setState] calls [create] exactly when [getByUuid] finds
    nothing and [updateByUuid] otherwise, so [updateByUuid] changes the
    named fields of an existing record and creates none. *)
Definition Files_getByUuid (id : string) : Method T (option FileRec) :=
  local_query (FilesGetByUuid id) (fun w => store w !! id).

Definition Files_updateByUuid (id : string) (p : Patch) : Method T unit :=
  local_call (FilesUpdateByUuid id p) (set_store (alter (apply_patch p) id)) (fun _ w => w).

Definition Files_create (id : string) (r : FileRec) : Method T unit :=
  local_call (FilesCreate id r) (set_store (insert id r)) (fun _ w => w).

Definition Files_removeByUuid (id : string) : Method T unit :=
  local_call (FilesRemoveByUuid id) (set_store (removeByUuid_effect id)) (fun _ w => w).

(** Modelled from the spec: the helpers [writeFile], [deleteFile] and
    [existsSync] of [./helpers] act on the Local Cache, one file per path;
    existence is the only queried fact. *)
Definition writeFile (path : string) (data : list Byte.byte) : Method T unit :=
  local_call (WriteFile path data) (set_cache (insert path data))
    (fun f => set_cache (fun c => match fault_residue f with
                                  | Some partial => <[path := partial]> c
                                  | None => c
                                  end)).

Definition deleteFile (path : string) : Method T unit :=
  local_call (DeleteFile path) (set_cache (delete path)) (fun _ w => w).

Definition existsSync (path : string) (w : World) : bool :=
  bool_decide (is_Some (cache w !! path)).

(** The remote storage gateway ([this.storageService]). *)
Definition getNode (wg id : string) : Method T Node :=
  remote_call (GetNode wg id) (fun w => node_reply w wg id).

Definition downloadDocument (wg id : string) : Method T (list Byte.byte) :=
  remote_call (DownloadDocument wg id) (fun w => bytes_reply w wg id).

Definition createDocumentFromUrl (wg url : string) (fileName parent : option string)
  : Method T unit :=
  local_call (CreateDocumentFromUrl wg url fileName parent) (fun w => w) (fun _ w => w).

Definition verifyUserEditPermission (u : User) (wg : string) : Method T bool :=
  remote_call (VerifyUserEditPermission u wg) (fun w => permission_reply w u wg).

(** [pubsub.topic(t).publish(...)]; the notification bus takes the message
    and does not throw. *)
Definition publish (t : Topic) (document : Document) (error : option JsError)
  : Method T unit :=
  fun s => (Returned tt, (fst s, log (Publish t document error) true (snd s))).

End Collaborators.

(** ** The earlier version of the class (source lines 19-101) *)

Module Legacy.
Section Class.
Context `{Platform}.

(** [constructor(documentUuid, workGroupUuid, userEmail)]; the storage
    client it builds is represented by the remote replies of the world,
    and the creation of the storage directory is left out. *)
Definition new (documentUuid workGroupUuid : string) : LegacyDocument :=
  mkLegacyDocument documentUuid workGroupUuid (path_join STORAGE_DIR documentUuid)
    None None None None None None None.

Definition set_state (s : DocState) (d : LegacyDocument) : LegacyDocument :=
  mkLegacyDocument (l_uuid d) (l_workGroup d) (l_filePath d) (Some s)
    (l_name d) (l_parent d) (l_size d) (l_modificationDate d)
    (l_fileType d) (l_documentType d).

Definition load_state (s : option DocState) (d : LegacyDocument) : LegacyDocument :=
  mkLegacyDocument (l_uuid d) (l_workGroup d) (l_filePath d) s
    (l_name d) (l_parent d) (l_size d) (l_modificationDate d)
    (l_fileType d) (l_documentType d).

(** [Object.assign(this, document)] after [fileType] and [documentType]
    have been added to [document]. *)
Definition assign_node (n : Node) (d : LegacyDocument) : LegacyDocument :=
  mkLegacyDocument (node_uuid n) (node_workGroup n) (l_filePath d) (l_state d)
    (Some (node_name n)) (Some (node_parent n)) (Some (node_size n))
    (Some (node_modificationDate n))
    (Some (getFileExtension (node_name n))) (Some (getFileType (node_name n))).

(** What [Files.create(this)] stores. *)
Definition record_of (d : LegacyDocument) : FileRec :=
  mkFileRec (l_state d) None (l_workGroup d) (l_name d) (l_size d) (l_modificationDate d).

Definition populateMetadata : Method LegacyDocument unit :=
  await wg <- read l_workGroup;
  await id <- read l_uuid;
  await document <- getNode wg id;
  assign (assign_node document).

Definition loadState : Method LegacyDocument unit :=
  await id <- read l_uuid;
  await document <- Files_getByUuid id;
  match document with
  | Some document => assign (load_state (rec_state document))
  | None => ret tt
  end.

Definition setState (s : DocState) : Method LegacyDocument unit :=
  assign (set_state s) ;;
  await id <- read l_uuid;
  await document <- Files_getByUuid id;
  match document with
  | Some _ => Files_updateByUuid id (mkPatch (Some s) None)
  | None => await this <- self; Files_create (l_uuid this) (record_of this)
  end.

Definition remove : Method LegacyDocument unit :=
  await id <- read l_uuid;
  Files_removeByUuid id ;;
  await path <- read l_filePath;
  deleteFile path.

Definition save : Method LegacyDocument unit :=
  try_catch
    (setState downloading ;;
     await wg <- read l_workGroup;
     await id <- read l_uuid;
     await fileData <- downloadDocument wg id;
     await path <- read l_filePath;
     writeFile path fileData ;;
     setState downloaded)
    (fun error => remove ;; throw error).

Definition isDownloaded (d : LegacyDocument) (w : World) : bool :=
  existsSync (l_filePath d) w && bool_decide (l_state d = Some downloaded).

Definition isDownloading (d : LegacyDocument) : bool :=
  bool_decide (l_state d = Some downloading).

End Class.
End Legacy.

(** ** The hardened version of the class (source lines 125-303) *)

Module Hardened.
Section Class.
Context `{Platform}.

(** [constructor(documentUuid, workGroupUuid, user)] *)
Definition new (documentUuid workGroupUuid : string) (u : User) : Document :=
  mkDocument documentUuid workGroupUuid u (path_join STORAGE_DIR documentUuid)
    None None None None None None None None None None.

Definition set_state (s : option DocState) (d : Document) : Document :=
  mkDocument (uuid d) (workGroup d) (user d) (filePath d) s (key d)
    (name d) (parent d) (size d) (modificationDate d)
    (fileType d) (documentType d) (downloadUrlPath d) (callbackUrlPath d).

Definition set_key (k : option string) (d : Document) : Document :=
  mkDocument (uuid d) (workGroup d) (user d) (filePath d) (state d) k
    (name d) (parent d) (size d) (modificationDate d)
    (fileType d) (documentType d) (downloadUrlPath d) (callbackUrlPath d).

Definition isDownloaded (d : Document) (w : World) : bool :=
  existsSync (filePath d) w && bool_decide (state d = Some downloaded).

Definition isDownloading (d : Document) : bool :=
  bool_decide (state d = Some downloading).

Definition isEditableExtension (d : Document) : bool :=
  match fileType d with
  | Some ext => bool_decide (ext ∈ EDITABLE_EXTENSIONS)
  | None => false
  end.

(** [Object.assign(this, document)]: the two url paths are properties of
    [document] only when the document was downloaded at that moment;
    otherwise [this] keeps the ones it had. *)
Definition assign_node (n : Node) (is_downloaded : bool) (d : Document) : Document :=
  mkDocument (node_uuid n) (node_workGroup n) (user d) (filePath d) (state d) (key d)
    (Some (node_name n)) (Some (node_parent n)) (Some (node_size n))
    (Some (node_modificationDate n))
    (Some (getFileExtension (node_name n))) (Some (getFileType (node_name n)))
    (if is_downloaded then Some ("/files/" ++ uuid d) else downloadUrlPath d)
    (if is_downloaded
     then Some ("/api/documents/track?workGroupUuid=" ++ workGroup d
                ++ "&documentUuid=" ++ uuid d)
     else callbackUrlPath d).

(** What [Files.create(this)] stores. *)
Definition record_of (d : Document) : FileRec :=
  mkFileRec (state d) (key d) (workGroup d) (name d) (size d) (modificationDate d).

Definition populateMetadata : Method Document unit :=
  await document <-
    try_catch
      (await wg <- read workGroup;
       await id <- read uuid;
       getNode wg id)
      (fun error =>
         if is_not_found error then throw (Error "Document not found")
         else throw error);
  await is_downloaded <- (fun s => (Returned (isDownloaded (fst s) (snd s)), s));
  assign (assign_node document is_downloaded).

Definition update (url : string) : Method Document unit :=
  await this <- self;
  createDocumentFromUrl (workGroup this) url (name this) (parent this).

Definition setState (s : DocState) : Method Document unit :=
  assign (set_state (Some s)) ;;
  await id <- read uuid;
  await document <- Files_getByUuid id;
  match document with
  | Some _ => Files_updateByUuid id (mkPatch (Some s) None)
  | None =>
      await k <- uuidV4;
      assign (set_key (Some k)) ;;
      await this <- self;
      Files_create (uuid this) (record_of this)
  end.

Definition remove : Method Document unit :=
  await id <- read uuid;
  await k <- uuidV4;
  Files_updateByUuid id (mkPatch (Some removed) (Some k)) ;;
  await path <- read filePath;
  deleteFile path.

Definition save : Method Document unit :=
  try_catch
    (await wg <- read workGroup;
     await id <- read uuid;
     await fileData <- downloadDocument wg id;
     await path <- read filePath;
     writeFile path fileData ;;
     setState downloaded ;;
     populateMetadata ;;
     await this <- self;
     publish DOCUMENT_DOWNLOADED this None)
    (fun error =>
       remove ;;
       await this <- self;
       publish DOCUMENT_DOWNLOAD_FAILED this (Some error) ;;
       throw error).

Definition load : Method Document unit :=
  await id <- read uuid;
  await document <- Files_getByUuid id;
  match document with
  | Some document =>
      assign (set_state (rec_state document)) ;;
      assign (set_key (rec_key document))
  | None => ret tt
  end.

Definition canBeEdited : Method Document bool :=
  await this <- self;
  await editPermissionGranted <- verifyUserEditPermission (user this) (workGroup this);
  ret editPermissionGranted.

Definition buildDocumentserverPayload (d : Document) : SignedPayload :=
  let payload :=
    mkPayload (fileType d) (name d)
      (webserver_baseUrl ++ interpolate (downloadUrlPath d))
      (key d)
      (documentType d)
      (mail (user d))
      (firstName (user d) ++ " " ++ lastName (user d))
      (webserver_baseUrl ++ interpolate (callbackUrlPath d))
      true in
  let cfg := signature_browser in
  if negb (enable cfg) then mkSignedPayload payload None
  else mkSignedPayload payload
         (Some (generateToken payload (secret cfg) (algorithm cfg) (expiresIn cfg))).

End Class.
End Hardened.

(** ** A concrete platform and concrete worlds, for running the methods *)

Module Demo.

(** On this platform [Files.removeByUuid] deletes the record of the
    identifier, as its name says. *)
#[export] Instance platform : Platform :=
  mkPlatform
    (fun n => pretty n)
    (fun dir file => dir ++ "/" ++ file)
    "/srv/files"
    (fun _ => "docx")
    (fun _ => "text")
    ["docx"; "xlsx"; "pptx"]
    "http://backend"
    (mkSignatureConfig true "s3cret" "HS256" "5m")
    (fun _ secret _ _ => "signed-with-" ++ secret)
    (fun id m => delete id m).

Definition alice : User := mkUser "alice@example.org" "Alice" "Martin".

Definition report : Node := mkNode "doc-1" "wg-1" "report.docx" "folder-1" 3 1700000000.

Definition content : list Byte.byte := [Byte.x50; Byte.x4b; Byte.x03].

Definition unavailable : JsError := mkError "Request failed with status code 503"
                                            (Some (mkResponse (Some 503))).

Definition missing : JsError := mkError "Request failed with status code 404"
                                        (Some (mkResponse (Some 404))).

Definition disk_full : JsError := mkError "ENOSPC: no space left on device" None.

(** A world with an empty store and an empty cache in which the remote
    gateway serves [report]. *)
Definition online (fs : list (option Fault)) : World :=
  mkWorld ∅ ∅ 0 fs
    (fun _ _ => Resolves report) (fun _ _ => Resolves content)
    (fun _ _ => Resolves true) [].

(** The same world with a remote gateway that rejects every call with [e]. *)
Definition offline (e : JsError) (fs : list (option Fault)) : World :=
  mkWorld ∅ ∅ 0 fs
    (fun _ _ => Rejects e) (fun _ _ => Rejects e) (fun _ _ => Rejects e) [].

(** A world in which the bytes can be downloaded but [getNode] is rejected. *)
Definition metadata_down (e : JsError) (fs : list (option Fault)) : World :=
  mkWorld ∅ ∅ 0 fs
    (fun _ _ => Rejects e) (fun _ _ => Resolves content) (fun _ _ => Resolves true) [].

Definition doc1 : Document := Hardened.new "doc-1" "wg-1" alice.

Definition legacy_doc1 : LegacyDocument := Legacy.new "doc-1" "wg-1".

End Demo.

(** ** Observing a run *)

Definition result_of {T A} (x : Completion A * (T * World)) : Completion A := fst x.
Definition this_of {T A} (x : Completion A * (T * World)) : T := fst (snd x).
Definition world_of {T A} (x : Completion A * (T * World)) : World := snd (snd x).

(** The calls made between two worlds of one run, oldest first. *)
Definition events_since (w w' : World) : list Event := drop (length (trace w)) (trace w').

(** An event that writes lifecycle state [s] to the metadata store. *)
Definition writes_state (s : DocState) (ev : Event) : Prop :=
  match ev_call ev with
  | FilesUpdateByUuid _ p => patch_state p = Some s
  | FilesCreate _ r => rec_state r = Some s
  | _ => False
  end.

Definition is_get_node (ev : Event) : Prop :=
  match ev_call ev with GetNode _ _ => True | _ => False end.

Definition is_publish (ev : Event) : Prop :=
  match ev_call ev with Publish _ _ _ => True | _ => False end.

(** Symbolic execution of a method on an arbitrary world. *)
Ltac unfold_methods :=
  unfold result_of, this_of, world_of, events_since,
    Hardened.save, Hardened.remove, Hardened.setState, Hardened.load,
    Hardened.populateMetadata, Hardened.update, Hardened.canBeEdited,
    Legacy.save, Legacy.remove, Legacy.setState, Legacy.loadState,
    Legacy.populateMetadata,
    Files_getByUuid, Files_updateByUuid, Files_create, Files_removeByUuid,
    writeFile, deleteFile, getNode, downloadDocument, createDocumentFromUrl,
    verifyUserEditPermission, publish, uuidV4,
    local_call, local_query, remote_call, try_catch, bind, ret, throw,
    read, self, assign, next_fault, consume in *.

Ltac step_through :=
  unfold_methods; cbn -[alter insert delete lookup] in *;
  repeat (case_match; simplify_eq; cbn -[alter insert delete lookup] in *).

(** ** Lifecycle operations as requests against a long-lived store *)

Module Lifecycle.

(** The methods of the hardened class that a caller can invoke. *)
Inductive Op :=
| PopulateMetadata
| Update (url : string)
| Save
| Load
| SetState (s : DocState)
| Remove
| CanBeEdited.

(** One invocation: the receiver object, the method, and how the
    environment behaves while it runs. *)
Record Request := mkRequest {
  req_this : Document;
  req_op : Op;
  req_faults : list (option Fault);
  req_node_reply : string -> string -> Reply Node;
  req_bytes_reply : string -> string -> Reply (list Byte.byte);
  req_permission_reply : User -> string -> Reply bool
}.

Section Serving.
Context `{Platform}.

Definition perform (op : Op) : Method Document unit :=
  match op with
  | PopulateMetadata => Hardened.populateMetadata
  | Update url => Hardened.update url
  | Save => Hardened.save
  | Load => Hardened.load
  | SetState s => Hardened.setState s
  | Remove => Hardened.remove
  | CanBeEdited => Hardened.canBeEdited ;; ret tt
  end.

(** The store, the cache, the uuid generator and the trace persist from
    one request to the next; the rest of the environment is the request's. *)
Definition arrive (q : Request) (w : World) : World :=
  mkWorld (store w) (cache w) (uuids w) (req_faults q)
    (req_node_reply q) (req_bytes_reply q) (req_permission_reply q) (trace w).

Definition serve (w : World) (q : Request) : World :=
  world_of (perform (req_op q) (req_this q, arrive q w)).

Definition serve_all (qs : list Request) (w : World) : World := foldl serve w qs.

(** The key carried by a write to the metadata store. *)
Definition key_written (ev : Event) : option string :=
  match ev_call ev with
  | FilesUpdateByUuid _ p => patch_key p
  | FilesCreate _ r => rec_key r
  | _ => None
  end.

(** [k] is one of the first [n] values of the uuid generator. *)
Definition issued (n : nat) (k : string) : Prop := ∃ i, (i < n)%nat ∧ k = uuid_at i.

(** Every key in the store, and every key ever handed to the store, was
    produced by the uuid generator. *)
Definition generated (w : World) : Prop :=
  (∀ id r k, store w !! id = Some r → rec_key r = Some k → issued (uuids w) k)
  ∧ (∀ ev k, ev ∈ trace w → key_written ev = Some k → issued (uuids w) k).

(** The events logged by a step carry generated keys only. *)
Definition carries_issued (n : nat) (evs : list Event) : Prop :=
  Forall (λ ev, ∀ k, key_written ev = Some k → issued n k) evs.

(** What every operation guarantees between the world it starts in and
    the world it leaves: the generator only advances, no record
    disappears, and stored keys remain generated ones. *)
Definition evolves (w w' : World) : Prop :=
  (uuids w ≤ uuids w')%nat
  ∧ (∀ id, is_Some (store w !! id) → is_Some (store w' !! id))
  ∧ (generated w → generated w').

Definition respects {T A} (m : Method T A) : Prop :=
  ∀ s, evolves (snd s) (world_of (m s)).

End Serving.
End Lifecycle.

(** ** Concrete runs *)

Module Scenario.
Section Runs.
Import Demo Lifecycle.

(** A request during which every call succeeds. *)
Definition calm (d : Document) (op : Op) : Request :=
  mkRequest d op [] (λ _ _, Resolves report) (λ _ _, Resolves content) (λ _ _, Resolves true).

(** A request during which the remote gateway rejects every call. *)
Definition stormy (d : Document) (op : Op) : Request :=
  mkRequest d op [] (λ _ _, Rejects unavailable) (λ _ _, Rejects unavailable)
    (λ _ _, Rejects unavailable).

(** The document a fresh request sees after a fetch followed by a removal:
    it is loaded from the store, in state [removed], with the rotated key. *)
Definition removed_document : Document :=
  let fetched := Hardened.save (doc1, online []) in
  let gone := Hardened.remove (this_of fetched, world_of fetched) in
  this_of (Hardened.load (doc1, world_of gone)).

(** A fetch during which the bytes arrive and are cached but the metadata
    refresh is rejected. *)
Definition refresh_failure_run : Completion unit * (Document * World) :=
  Hardened.save (doc1, metadata_down unavailable []).

(** A fetch of the earlier version whose download is rejected. *)
Definition legacy_fetch_failure_run : Completion unit * (LegacyDocument * World) :=
  Legacy.save (legacy_doc1, offline unavailable []).

(** The world after a successful fetch of [doc1], in which the next local
    call (the cache write of a second fetch) fails and leaves one byte
    behind. *)
Definition disk_full_world : World :=
  set_faults [Some (mkFault disk_full (Some [Byte.x50]))]
    (world_of (Hardened.save (doc1, online []))).

End Runs.
End Scenario.

(** ** Further concrete runs *)

Module Cases.
Section Runs.
Import Demo Lifecycle.

(** A first fetch of [doc1] that goes through. *)
Definition fetched : Completion unit * (Document * World) :=
  Hardened.save (doc1, online []).

Definition fetched_doc : Document := this_of fetched.
Definition fetched_world : World := world_of fetched.

(** A fetch of the earlier version that goes through. *)
Definition legacy_fetched : Completion unit * (LegacyDocument * World) :=
  Legacy.save (legacy_doc1, online []).


End Runs.
End Cases.

(** ** Access keys across the store *)

Module Keys.
Section Keyed.
Context `{Platform}.

(** Every record carries a key produced by the uuid generator, and no two
    records carry the same key. *)
Definition well_keyed (w : World) : Prop :=
  (∀ id r, store w !! id = Some r →
           ∃ i, (i < uuids w)%nat ∧ rec_key r = Some (uuid_at i))
  ∧ (∀ id1 id2 r1 r2, store w !! id1 = Some r1 → store w !! id2 = Some r2 →
                      rec_key r1 = rec_key r2 → id1 = id2).

(** A method that keeps a property of the world, however it ends. *)
Definition maintains {T A} (I : World → Prop) (m : Method T A) : Prop :=
  ∀ s, I (snd s) → I (world_of (m s)).

End Keyed.
End Keys.

(** ** Notions for the earlier version *)

(** What the earlier [setState(s)] leaves in the store when its calls go
    through: the state of an existing record is changed, or a record
    without a key is created from the object. *)
Definition legacy_marked `{Platform} (s : DocState) (d : LegacyDocument)
  (m : gmap string FileRec) : gmap string FileRec :=
  match m !! l_uuid d with
  | Some _ => alter (apply_patch (mkPatch (Some s) None)) (l_uuid d) m
  | None => <[l_uuid d := Legacy.record_of (Legacy.set_state s d)]> m
  end.

Definition is_download (ev : Event) : Prop :=
  match ev_call ev with DownloadDocument _ _ => True | _ => False end.

(** * Properties *)

Lemma events_since_app (tr evs : list Event) : drop (length tr) (tr ++ evs) = evs.
Proof. apply drop_app_length. Qed.

(** ** The usability predicate *)

(** C5. [isDownloaded] is true exactly when a file exists in the cache at
    the document's path and the state of the object is [downloaded]; this
    holds for both versions of the class, the path is the one the
    constructor derives from the identifier, and neither condition alone
    makes the predicate true. *)
Theorem isDownloaded_iff_file_and_state :
  (∀ (d : Document) (w : World),
      Hardened.isDownloaded d w = true
      ↔ is_Some (cache w !! filePath d) ∧ state d = Some downloaded)
  ∧ (∀ (d : LegacyDocument) (w : World),
      Legacy.isDownloaded d w = true
      ↔ is_Some (cache w !! l_filePath d) ∧ l_state d = Some downloaded)
  ∧ (∀ (P : Platform) id wg u,
      filePath (Hardened.new id wg u) = path_join STORAGE_DIR id
      ∧ l_filePath (Legacy.new id wg) = path_join STORAGE_DIR id)
  ∧ (∃ (d : Document) (w : World),
      is_Some (cache w !! filePath d) ∧ Hardened.isDownloaded d w = false)
  ∧ (∃ (d : Document) (w : World),
      state d = Some downloaded ∧ Hardened.isDownloaded d w = false).
Proof.
  repeat split.
  - unfold Hardened.isDownloaded, existsSync in H.
    apply andb_true_iff in H as [H _]. by apply bool_decide_eq_true in H.
  - unfold Hardened.isDownloaded in H.
    apply andb_true_iff in H as [_ H]. by apply bool_decide_eq_true in H.
  - intros [Hfile Hstate]. unfold Hardened.isDownloaded, existsSync.
    apply andb_true_iff. split; by apply bool_decide_eq_true.
  - unfold Legacy.isDownloaded, existsSync in H.
    apply andb_true_iff in H as [H _]. by apply bool_decide_eq_true in H.
  - unfold Legacy.isDownloaded in H.
    apply andb_true_iff in H as [_ H]. by apply bool_decide_eq_true in H.
  - intros [Hfile Hstate]. unfold Legacy.isDownloaded, existsSync.
    apply andb_true_iff. split; by apply bool_decide_eq_true.
  - exists (Hardened.set_state (Some removed) Demo.doc1).
    exists (set_cache (insert "/srv/files/doc-1" Demo.content) (Demo.online [])).
    split; [by eexists | reflexivity].
  - exists (Hardened.set_state (Some downloaded) Demo.doc1), (Demo.online []).
    split; reflexivity.
Qed.

(** ** The editing payload *)

Section PayloadRun.
Import Demo.

(** C1, counterexample.  For a document in state [removed]
    [buildDocumentserverPayload] returns a payload, and the payload embeds
    the access key of the document. *)
Lemma payload_built_for_removed_document :
  state Scenario.removed_document = Some removed
  ∧ pl_key (payload (Hardened.buildDocumentserverPayload Scenario.removed_document)) = Some "1"
  ∧ token (Hardened.buildDocumentserverPayload Scenario.removed_document) = Some "signed-with-s3cret".
Proof. vm_compute. done. Qed.

End PayloadRun.

(** C1, as the code has it.  [buildDocumentserverPayload] does not look at
    the state: for every document, whatever its state, it returns a payload
    whose [document.key] is the key the object currently holds (and whose
    other fields are read from the object in the same way); a token is
    attached exactly when signing is enabled. *)
Theorem buildDocumentserverPayload_ignores_state (P : Platform) (d : Document) (s : option DocState) :
  pl_key (payload (Hardened.buildDocumentserverPayload d)) = key d
  ∧ payload (Hardened.buildDocumentserverPayload (Hardened.set_state s d))
    = payload (Hardened.buildDocumentserverPayload d)
  ∧ (is_Some (token (Hardened.buildDocumentserverPayload d)) ↔ enable signature_browser = true).
Proof.
  unfold Hardened.buildDocumentserverPayload.
  destruct (enable signature_browser); cbn; repeat split;
    try done; try (intros [? ?]; done); by eexists.
Qed.

(** ** Failures of the remote gateway in [populateMetadata] *)

Lemma is_not_found_spec (e : JsError) :
  is_not_found e = true ↔ ∃ r, response e = Some r ∧ status r = Some 404.
Proof.
  unfold is_not_found. destruct (response e) as [[[st|]]|]; cbn.
  - rewrite andb_true_iff, negb_true_iff, !Z.eqb_eq, Z.eqb_neq. split.
    + intros [_ ->]. by eexists.
    + intros (r & [= <-] & Hst). cbn in Hst. by simplify_eq.
  - split; [done|]. intros (r & [= <-] & Hst). done.
  - split; [done|]. intros (r & ? & _). done.
Qed.

Section NotFoundRun.
Import Demo.

(** C9, counterexample.  In the earlier version of the class a gateway
    that reports the document missing (status 404) makes
    [populateMetadata] fail with the gateway's own error, not with the
    message 'Document not found'. *)
Lemma legacy_populateMetadata_raises_raw_404 :
  is_not_found missing = true
  ∧ result_of (Legacy.populateMetadata (legacy_doc1, offline missing [])) = Thrown missing
  ∧ message missing ≠ "Document not found".
Proof. vm_compute. repeat split; congruence. Qed.

End NotFoundRun.

(** C9, as the code has it.  In the hardened version, when [getNode]
    rejects with an error whose [response.status] is 404,
    [populateMetadata] fails with a new error whose message is 'Document
    not found'; every other rejection is thrown unchanged; the object is
    not modified.  The earlier version has no such translation and throws
    every rejection, a 404 included, unchanged. *)
Theorem populateMetadata_gateway_failure (P : Platform) (e : JsError) :
  (∀ (d : Document) (w : World),
      node_reply w (workGroup d) (uuid d) = Rejects e →
      result_of (Hardened.populateMetadata (d, w))
      = Thrown (if is_not_found e then Error "Document not found" else e)
      ∧ this_of (Hardened.populateMetadata (d, w)) = d)
  ∧ (∀ (d : LegacyDocument) (w : World),
      node_reply w (l_workGroup d) (l_uuid d) = Rejects e →
      result_of (Legacy.populateMetadata (d, w)) = Thrown e
      ∧ this_of (Legacy.populateMetadata (d, w)) = d).
Proof.
  split; intros d w Hreply; unfold_methods; cbn; rewrite Hreply; cbn.
  - by destruct (is_not_found e).
  - done.
Qed.

Lemma populateMetadata_gateway_failure_witness :
  result_of (Hardened.populateMetadata (H := Demo.platform)
               (Demo.doc1, Demo.offline Demo.missing []))
  = Thrown (Error "Document not found")
  ∧ result_of (Hardened.populateMetadata (H := Demo.platform)
                 (Demo.doc1, Demo.offline Demo.unavailable []))
    = Thrown Demo.unavailable.
Proof.
  split.
  - apply (proj1 (populateMetadata_gateway_failure Demo.platform Demo.missing)
             Demo.doc1 (Demo.offline Demo.missing [])). reflexivity.
  - apply (proj1 (populateMetadata_gateway_failure Demo.platform Demo.unavailable)
             Demo.doc1 (Demo.offline Demo.unavailable [])). reflexivity.
Defined.

(** ** [setState]: the object and the store *)

(** C10. After [setState(s)] the [state] property of the object is [s],
    whether the call returned or threw; and when the call throws, the
    metadata store is what it was before the call.  This holds for both
    versions of the class. *)
Theorem setState_assigns_before_store (P : Platform) (s : DocState) :
  (∀ (d : Document) (w : World),
      state (this_of (Hardened.setState s (d, w))) = Some s
      ∧ ∀ e, result_of (Hardened.setState s (d, w)) = Thrown e →
             store (world_of (Hardened.setState s (d, w))) = store w)
  ∧ (∀ (d : LegacyDocument) (w : World),
      l_state (this_of (Legacy.setState s (d, w))) = Some s
      ∧ ∀ e, result_of (Legacy.setState s (d, w)) = Thrown e →
             store (world_of (Legacy.setState s (d, w))) = store w).
Proof.
  split; intros d [st ca n fs nr br pr tr]; split; try intros e;
    step_through; done.
Qed.

Lemma setState_assigns_before_store_witness :
  state (this_of (Hardened.setState (H := Demo.platform) downloaded
                    (Demo.doc1, Demo.online [Some (mkFault Demo.disk_full None)])))
  = Some downloaded
  ∧ store (world_of (Hardened.setState (H := Demo.platform) downloaded
                       (Demo.doc1, Demo.online [Some (mkFault Demo.disk_full None)])))
    = ∅.
Proof.
  pose proof (proj1 (setState_assigns_before_store Demo.platform downloaded)
                Demo.doc1 (Demo.online [Some (mkFault Demo.disk_full None)])) as [Hmem Hstore].
  split; [exact Hmem | exact (Hstore Demo.disk_full eq_refl)].
Defined.

(** ** What every operation preserves *)

Section Evolution.
Context `{Platform}.
Import Lifecycle.

Lemma issued_mono (n m : nat) (k : string) : (n ≤ m)%nat → issued n k → issued m k.
Proof. intros Hnm (i & Hi & ->). exists i. split; [lia | done]. Qed.

Lemma evolves_refl (w : World) : evolves w w.
Proof. split; [lia | split; auto]. Qed.

Lemma evolves_trans (w1 w2 w3 : World) : evolves w1 w2 → evolves w2 w3 → evolves w1 w3.
Proof.
  intros (Hn & Hkeep & Hgen) (Hn' & Hkeep' & Hgen'). split; [lia | split; auto].
Qed.

Lemma trace_generated (w w' : World) (evs : list Event) :
  (uuids w ≤ uuids w')%nat →
  trace w' = (trace w ++ evs)%list →
  carries_issued (uuids w') evs →
  (∀ ev k, ev ∈ trace w → key_written ev = Some k → issued (uuids w) k) →
  ∀ ev k, ev ∈ trace w' → key_written ev = Some k → issued (uuids w') k.
Proof.
  intros Hn Htr Hevs Hold ev k Hin Hk. rewrite Htr in Hin.
  apply elem_of_app in Hin as [Hin|Hin].
  - eapply issued_mono; [exact Hn | by eapply Hold].
  - unfold carries_issued in Hevs. rewrite Forall_forall in Hevs. by eapply Hevs.
Qed.

(** A step that leaves the store untouched. *)
Lemma evolves_same_store (w w' : World) (evs : list Event) :
  (uuids w ≤ uuids w')%nat →
  trace w' = (trace w ++ evs)%list →
  carries_issued (uuids w') evs →
  store w' = store w →
  evolves w w'.
Proof.
  intros Hn Htr Hevs Hst. split; [done | split; [by rewrite Hst |]].
  intros [Hgen Hold]. split.
  - intros id r k Hr Hk. rewrite Hst in Hr.
    eapply issued_mono; [exact Hn | by eapply Hgen].
  - by eapply trace_generated.
Qed.

(** [updateByUuid]: the named fields of an existing record change; a key
    in the patch is a generated one. *)
Lemma evolves_alter (w w' : World) (evs : list Event) (id : string) (p : Patch) :
  (uuids w ≤ uuids w')%nat →
  trace w' = (trace w ++ evs)%list →
  carries_issued (uuids w') evs →
  store w' = alter (apply_patch p) id (store w) →
  (∀ k, patch_key p = Some k → issued (uuids w') k) →
  evolves w w'.
Proof.
  intros Hn Htr Hevs Hst Hp. split; [done | split]; [|intros [Hgen Hold]; split].
  - intros id' Hsome. rewrite Hst, lookup_alter. case_decide; [|done].
    subst. by apply fmap_is_Some.
  - intros id' r k Hr Hk. rewrite Hst, lookup_alter in Hr.
    case_decide as Hid.
    + subst id'. destruct (store w !! id) as [old|] eqn:Hprev; [|done].
      cbn in Hr. simplify_eq. cbn in Hk.
      destruct (patch_key p) as [k'|] eqn:Hpk.
      * simplify_eq. by apply Hp.
      * eapply issued_mono; [exact Hn | by eapply Hgen].
    + eapply issued_mono; [exact Hn | by eapply Hgen].
  - by eapply trace_generated.
Qed.

(** [create]: a record is added; its key is a generated one. *)
Lemma evolves_insert (w w' : World) (evs : list Event) (id : string) (r : FileRec) :
  (uuids w ≤ uuids w')%nat →
  trace w' = (trace w ++ evs)%list →
  carries_issued (uuids w') evs →
  store w' = <[id := r]> (store w) →
  (∀ k, rec_key r = Some k → issued (uuids w') k) →
  evolves w w'.
Proof.
  intros Hn Htr Hevs Hst Hr. split; [done | split]; [|intros [Hgen Hold]; split].
  - intros id' Hsome. rewrite Hst, lookup_insert. by case_decide.
  - intros id' r' k Hr' Hk. rewrite Hst, lookup_insert in Hr'.
    case_decide.
    + simplify_eq. by apply Hr.
    + eapply issued_mono; [exact Hn | by eapply Hgen].
  - by eapply trace_generated.
Qed.

Ltac issued_now :=
  let k := fresh "k" in let Hk := fresh "Hk" in
  cbn; intros k Hk; simplify_eq;
  try (eexists; split; [|reflexivity]; cbn; lia).

Ltac logged :=
  first [ progress (cbn; rewrite <- ?app_assoc); reflexivity | cbn; reflexivity ].

Ltac carried :=
  unfold carries_issued; cbn;
  repeat first [ apply Forall_nil_2 | apply Forall_cons_2 ]; issued_now.

Ltac untouched :=
  eapply evolves_same_store; [cbn; lia | logged | carried | reflexivity].

Lemma respects_ret {T A} (a : A) : respects (@ret T A a).
Proof. intros s. apply evolves_refl. Qed.

Lemma respects_throw {T A} (e : JsError) : respects (@throw T A e).
Proof. intros s. apply evolves_refl. Qed.

Lemma respects_read {T A} (f : T → A) : respects (read f).
Proof. intros s. apply evolves_refl. Qed.

Lemma respects_self {T} : respects (@self T).
Proof. intros s. apply evolves_refl. Qed.

Lemma respects_assign {T} (f : T → T) : respects (assign f).
Proof. intros s. apply evolves_refl. Qed.

Lemma respects_bind {T A B} (m : Method T A) (k : A → Method T B) :
  respects m → (∀ a, respects (k a)) → respects (bind m k).
Proof.
  intros Hm Hk s. specialize (Hm s). unfold bind, world_of in *.
  destruct (m s) as [[a|e] s']; cbn in *; [|done].
  eapply evolves_trans; [exact Hm | apply Hk].
Qed.

Lemma respects_try_catch {T A} (m : Method T A) (h : JsError → Method T A) :
  respects m → (∀ e, respects (h e)) → respects (try_catch m h).
Proof.
  intros Hm Hh s. specialize (Hm s). unfold try_catch, world_of in *.
  destruct (m s) as [[a|e] s']; cbn in *; [done|].
  eapply evolves_trans; [exact Hm | apply Hh].
Qed.

Lemma respects_downloadDocument {T} (wg id : string) : respects (@downloadDocument T wg id).
Proof.
  intros [d w]. unfold_methods. cbn.
  destruct (bytes_reply w wg id); untouched.
Qed.

Lemma respects_writeFile {T} (path : string) (data : list Byte.byte) :
  respects (@writeFile T path data).
Proof.
  intros [d w]. unfold_methods. cbn.
  destruct (hd None (faults w)); untouched.
Qed.

Lemma respects_publish {T} t doc err : respects (@publish T t doc err).
Proof. intros [d w]. unfold_methods. untouched. Qed.

Lemma respects_populateMetadata : respects Hardened.populateMetadata.
Proof.
  intros [d w]. unfold_methods. cbn.
  destruct (node_reply w (workGroup d) (uuid d)) as [n|e]; cbn.
  - untouched.
  - destruct (is_not_found e); untouched.
Qed.

Lemma respects_update (url : string) : respects (Hardened.update url).
Proof.
  intros [d w]. unfold_methods. cbn.
  destruct (hd None (faults w)); untouched.
Qed.

Lemma respects_load : respects Hardened.load.
Proof.
  intros [d w]. unfold_methods. cbn.
  destruct (hd None (faults w)); [untouched|].
  destruct (store w !! uuid d); untouched.
Qed.

Lemma respects_canBeEdited : respects Hardened.canBeEdited.
Proof.
  intros [d w]. unfold_methods. cbn.
  destruct (permission_reply w (user d) (workGroup d)); untouched.
Qed.

Lemma respects_setState (s : DocState) : respects (Hardened.setState s).
Proof.
  intros [d w]. unfold_methods. cbn.
  destruct (hd None (faults w)) as [f|] eqn:Hf1; cbn; [untouched|].
  destruct (store w !! uuid d) as [old|]; cbn.
  - destruct (hd None (tl (faults w))); cbn; [untouched|].
    eapply evolves_alter; [cbn; lia | logged | carried | reflexivity | issued_now].
  - destruct (hd None (tl (faults w))); cbn; [untouched|].
    eapply evolves_insert; [cbn; lia | logged | carried | reflexivity | issued_now].
Qed.

Lemma respects_remove : respects Hardened.remove.
Proof.
  intros [d w]. unfold_methods. cbn.
  destruct (hd None (faults w)); cbn; [untouched|].
  destruct (hd None (tl (faults w))); cbn;
    (eapply evolves_alter; [cbn; lia | logged | carried | reflexivity | issued_now]).
Qed.

Lemma respects_save : respects Hardened.save.
Proof.
  unfold Hardened.save.
  apply respects_try_catch.
  - repeat (first [ apply respects_read | apply respects_self
                  | apply respects_downloadDocument | apply respects_writeFile
                  | apply respects_setState | apply respects_populateMetadata
                  | apply respects_publish
                  | apply respects_bind; [|intros ?] ]).
  - intros e.
    repeat (first [ apply respects_self | apply respects_remove
                  | apply respects_publish | apply respects_throw
                  | apply respects_bind; [|intros ?] ]).
Qed.

Lemma respects_perform (op : Op) : respects (perform op).
Proof.
  destruct op; cbn.
  - apply respects_populateMetadata.
  - apply respects_update.
  - apply respects_save.
  - apply respects_load.
  - apply respects_setState.
  - apply respects_remove.
  - apply respects_bind; [apply respects_canBeEdited | intros; apply respects_ret].
Qed.

Lemma evolves_serve (w : World) (q : Request) : evolves w (serve w q).
Proof.
  unfold serve.
  eapply evolves_trans; [|apply (respects_perform (req_op q) (req_this q, arrive q w))].
  eapply evolves_same_store with (evs := []);
    [done | cbn; by rewrite app_nil_r | apply Forall_nil_2 | done].
Qed.

Lemma evolves_serve_all (qs : list Request) (w : World) : evolves w (serve_all qs w).
Proof.
  revert w. induction qs as [|q qs IH]; intros w; cbn.
  - apply evolves_refl.
  - eapply evolves_trans; [apply evolves_serve | apply IH].
Qed.

Lemma empty_world_generated (w : World) : store w = ∅ → trace w = [] → generated w.
Proof.
  intros Hst Htr. split.
  - intros id r k Hr. by rewrite Hst in Hr.
  - intros ev k Hin. rewrite Htr in Hin. by apply elem_of_nil in Hin.
Qed.

End Evolution.

(** ** Removal keeps the record and rotates the key *)

Section LegacyRemovalRun.
Import Demo Cases.

(** C6, counterexample.  The earlier version's [remove], run on a document
    that has a record: it makes two calls, [Files.removeByUuid] and
    [deleteFile], neither of which writes state [removed]; and with a
    [Files.removeByUuid] that deletes the record, the record is gone
    afterwards. *)
Lemma legacy_remove_deletes_the_record :
  store (world_of legacy_fetched) !! "doc-1"
  = Some (mkFileRec (Some downloaded) None "wg-1" None None None)
  ∧ events_since (world_of legacy_fetched)
      (world_of (Legacy.remove (this_of legacy_fetched, world_of legacy_fetched)))
    = [mkEvent (FilesRemoveByUuid "doc-1") true;
       mkEvent (DeleteFile "/srv/files/doc-1") true]
  ∧ store (world_of (Legacy.remove (this_of legacy_fetched, world_of legacy_fetched)))
    !! "doc-1" = None.
Proof. vm_compute. done. Qed.

End LegacyRemovalRun.

(** C6, as the code has it.  No operation of the hardened class deletes a
    record of the metadata store: a record that exists before any sequence
    of requests exists after it.  Its [remove] in particular keeps the
    record: when the store update goes through, the record is the old one
    with state [removed] and a new key; when the update fails, the record
    is the old one.  The earlier version's [remove] writes no state at
    all: what it does to the store is what [Files.removeByUuid] does to it
    (nothing, when that call throws). *)
Theorem records_are_never_deleted (P : Platform) :
  (∀ (qs : list Lifecycle.Request) (w : World) (id : string),
      is_Some (store w !! id) → is_Some (store (Lifecycle.serve_all qs w) !! id))
  ∧ (∀ (d : Document) (w : World) (old : FileRec),
      store w !! uuid d = Some old →
      ∃ new, store (world_of (Hardened.remove (d, w))) !! uuid d = Some new
        ∧ (next_fault w = None →
             new = apply_patch (mkPatch (Some removed) (Some (uuid_at (uuids w)))) old
             ∧ rec_state new = Some removed)
        ∧ (is_Some (next_fault w) → new = old))
  ∧ (∀ (d : LegacyDocument) (w : World),
      Forall (λ ev, ¬ writes_state removed ev)
        (events_since w (world_of (Legacy.remove (d, w))))
      ∧ (next_fault w = None →
           store (world_of (Legacy.remove (d, w)))
           = removeByUuid_effect (l_uuid d) (store w))
      ∧ (is_Some (next_fault w) → store (world_of (Legacy.remove (d, w))) = store w)).
Proof.
  split; [|split].
  - intros qs w id. by apply evolves_serve_all.
  - intros d w old Hold. unfold_methods. cbn.
    destruct (hd None (faults w)) as [f|] eqn:Hf; cbn.
    + exists old. split; [done|]. split; [done|]. done.
    + destruct (hd None (tl (faults w))); cbn;
        (eexists; split; [rewrite lookup_alter; case_decide; [by rewrite Hold | done] |]);
        (split; [done | by intros [? ?]]).
  - intros d w. unfold_methods. cbn.
    destruct (hd None (faults w)) as [f|]; cbn.
    + rewrite events_since_app. split; [|split]; [|done|done].
      repeat first [apply Forall_nil_2 | apply Forall_cons_2]; cbn; tauto.
    + destruct (hd None (tl (faults w))); cbn;
        rewrite <- app_assoc, events_since_app;
        (split; [|split]; [|done|by intros [? ?]]);
        repeat first [apply Forall_nil_2 | apply Forall_cons_2]; cbn; tauto.
Qed.

Section RemovalRuns.
Import Demo Lifecycle Scenario.

Lemma records_are_never_deleted_witness :
  is_Some (store (serve_all [calm doc1 Remove; stormy doc1 Save; calm doc1 Remove]
                    (serve (online []) (calm doc1 Save))) !! "doc-1").
Proof.
  apply (proj1 (records_are_never_deleted platform)).
  vm_compute. by eexists.
Defined.

End RemovalRuns.

Lemma remove_store (P : Platform) (d : Document) (w : World) :
  next_fault w = None →
  store (world_of (Hardened.remove (d, w)))
  = alter (apply_patch (mkPatch (Some removed) (Some (uuid_at (uuids w))))) (uuid d) (store w).
Proof.
  intros Hok. unfold_methods. cbn. rewrite Hok. cbn.
  by destruct (hd None (tl (faults w))).
Qed.

(** C2. Under the hypothesis that the uuid generator never repeats a
    value: start from an empty store and serve any sequence of requests;
    if the store holds a record for an identifier at some point of that
    history, then after any further requests a [remove] whose store update
    goes through leaves the record in state [removed] with a key that
    differs from the key seen earlier, and from every key that any earlier
    call handed to the store. *)
Theorem remove_rotates_to_a_key_never_stored (P : Platform) :
  Inj (=) (=) uuid_at →
  ∀ (w0 : World) (earlier later : list Lifecycle.Request) (q : Lifecycle.Request)
    (seen : FileRec),
    store w0 = ∅ → trace w0 = [] →
    Lifecycle.req_op q = Lifecycle.Remove →
    hd None (Lifecycle.req_faults q) = None →
    store (Lifecycle.serve_all earlier w0) !! uuid (Lifecycle.req_this q) = Some seen →
    let w_now := Lifecycle.serve_all later (Lifecycle.serve_all earlier w0) in
    ∃ new, store (Lifecycle.serve w_now q) !! uuid (Lifecycle.req_this q) = Some new
      ∧ rec_state new = Some removed
      ∧ rec_key new = Some (uuid_at (uuids w_now))
      ∧ rec_key new ≠ rec_key seen
      ∧ (∀ ev, ev ∈ trace w_now → Lifecycle.key_written ev ≠ rec_key new).
Proof.
  intros Hinj w0 earlier later q seen Hst Htr Hop Hok Hseen w_now.
  pose proof (empty_world_generated w0 Hst Htr) as Hgen0.
  destruct (evolves_serve_all earlier w0) as (_ & _ & Hgen1).
  specialize (Hgen1 Hgen0).
  destruct (evolves_serve_all later (Lifecycle.serve_all earlier w0)) as (Hn & Hkeep & Hgen2).
  specialize (Hgen2 Hgen1). fold w_now in Hn, Hkeep, Hgen2.
  destruct (Hkeep (uuid (Lifecycle.req_this q))) as [cur Hcur]; [by eexists|].
  unfold Lifecycle.serve. rewrite Hop. cbn [Lifecycle.perform].
  rewrite remove_store by exact Hok.
  cbn [Lifecycle.arrive store uuids].
  rewrite lookup_alter. case_decide; [|done]. rewrite Hcur. cbn.
  eexists. split; [reflexivity|]. cbn. repeat split.
  - intros Heq. destruct Hgen1 as [Hgen1 _].
    destruct (Hgen1 _ _ _ Hseen (eq_sym Heq)) as (i & Hi & Hk).
    apply Hinj in Hk. lia.
  - intros ev Hin Heq. destruct Hgen2 as [_ Hgen2].
    destruct (Hgen2 _ _ Hin Heq) as (i & Hi & Hk).
    apply Hinj in Hk. lia.
Qed.

Section RotationRun.
Import Demo Lifecycle Scenario.

Lemma remove_rotates_to_a_key_never_stored_witness :
  ∃ new,
    store (serve (serve_all [calm doc1 Load] (serve_all [calm doc1 Save] (online [])))
             (calm doc1 Remove)) !! "doc-1" = Some new
    ∧ rec_state new = Some removed
    ∧ rec_key new = Some "1"
    ∧ rec_key new ≠ Some "0".
Proof.
  destruct (remove_rotates_to_a_key_never_stored platform pretty_nat_inj
              (online []) [calm doc1 Save] [calm doc1 Load] (calm doc1 Remove)
              (mkFileRec (Some downloaded) (Some "0") "wg-1" None None None)
              eq_refl eq_refl eq_refl eq_refl)
    as (new & Hnew & Hstate & Hkey & Hdiff & _).
  - vm_compute. reflexivity.
  - exists new. repeat split; [exact Hnew | exact Hstate | exact Hkey | exact Hdiff].
Defined.

End RotationRun.

(** ** [setState] and the stored key *)

(** C8. When a record already exists for the document, [setState(s)]
    changes nothing but its [state]: the stored key and the other fields
    of the record, the other records, the key held by the object and the
    uuid generator are left as they were (if the call throws, the record
    is left entirely as it was).  When no record exists and the call
    returns, a record has been created whose key is a newly generated
    uuid, which the object holds too. *)
Theorem setState_keeps_the_key_of_an_existing_record
  (P : Platform) (s : DocState) (d : Document) (w : World) :
  (∀ old, store w !! uuid d = Some old →
     key (this_of (Hardened.setState s (d, w))) = key d
     ∧ uuids (world_of (Hardened.setState s (d, w))) = uuids w
     ∧ (∀ id, id ≠ uuid d →
          store (world_of (Hardened.setState s (d, w))) !! id = store w !! id)
     ∧ (result_of (Hardened.setState s (d, w)) = Returned tt →
          store (world_of (Hardened.setState s (d, w))) !! uuid d
          = Some (mkFileRec (Some s) (rec_key old) (rec_workGroup old) (rec_name old)
                    (rec_size old) (rec_modificationDate old)))
     ∧ (∀ e, result_of (Hardened.setState s (d, w)) = Thrown e →
          store (world_of (Hardened.setState s (d, w))) !! uuid d = Some old))
  ∧ (store w !! uuid d = None →
     result_of (Hardened.setState s (d, w)) = Returned tt →
     key (this_of (Hardened.setState s (d, w))) = Some (uuid_at (uuids w))
     ∧ uuids (world_of (Hardened.setState s (d, w))) = S (uuids w)
     ∧ store (world_of (Hardened.setState s (d, w))) !! uuid d
       = Some (mkFileRec (Some s) (Some (uuid_at (uuids w))) (workGroup d) (name d)
                 (size d) (modificationDate d))).
Proof.
  split.
  - intros old Hold. unfold_methods. cbn.
    destruct (hd None (faults w)) as [f|]; cbn; [by repeat split|].
    rewrite Hold. cbn.
    destruct (hd None (tl (faults w))) as [f|]; cbn; [by repeat split|].
    repeat split; try done.
    + intros id Hid. by rewrite lookup_alter_ne.
    + intros _. rewrite lookup_alter. case_decide; [|done]. by rewrite Hold.
  - intros Hnone. unfold_methods. cbn.
    destruct (hd None (faults w)) as [f|]; cbn; [done|].
    rewrite Hnone. cbn.
    destruct (hd None (tl (faults w))) as [f|]; cbn; [done|].
    intros _. repeat split. by rewrite lookup_insert_eq.
Qed.

Section SetStateRun.
Import Demo Scenario.

Lemma setState_keeps_the_key_of_an_existing_record_witness :
  store (world_of (Hardened.setState downloading
                     (doc1, world_of (Hardened.save (doc1, online []))))) !! "doc-1"
  = Some (mkFileRec (Some downloading) (Some "0") "wg-1" None None None)
  ∧ key (this_of (Hardened.setState downloaded (doc1, online []))) = Some "0".
Proof.
  split.
  - apply (proj1 (setState_keeps_the_key_of_an_existing_record platform downloading doc1
                    (world_of (Hardened.save (doc1, online []))))
             (mkFileRec (Some downloaded) (Some "0") "wg-1" None None None)).
    + vm_compute. reflexivity.
    + vm_compute. reflexivity.
  - apply (proj2 (setState_keeps_the_key_of_an_existing_record platform downloaded doc1
                    (online []))).
    + vm_compute. reflexivity.
    + vm_compute. reflexivity.
Defined.

End SetStateRun.

(** ** Order of the two steps of [remove] *)

Section LegacyOrderRun.
Import Demo Cases.

(** C3, counterexample.  The earlier version's [remove], run on a fetched
    document: the cached file exists before and is gone after, and the two
    calls of the run, [Files.removeByUuid] and [deleteFile], hand no key
    to the store and write no state [removed]; no rotated key is recorded
    at any point of the run. *)
Lemma legacy_remove_deletes_the_file_without_rotation :
  cache (world_of legacy_fetched) !! "/srv/files/doc-1" = Some content
  ∧ map ev_call
      (events_since (world_of legacy_fetched)
         (world_of (Legacy.remove (this_of legacy_fetched, world_of legacy_fetched))))
    = [FilesRemoveByUuid "doc-1"; DeleteFile "/srv/files/doc-1"]
  ∧ map Lifecycle.key_written
      (events_since (world_of legacy_fetched)
         (world_of (Legacy.remove (this_of legacy_fetched, world_of legacy_fetched))))
    = [None; None]
  ∧ cache (world_of (Legacy.remove (this_of legacy_fetched, world_of legacy_fetched)))
    !! "/srv/files/doc-1" = None.
Proof. vm_compute. done. Qed.

End LegacyOrderRun.

(** C3, as the code has it.  Every run of the hardened [remove] has one of
    two shapes.  Either the store update that carries state [removed] and
    the new key throws, and then [deleteFile] is not called at all and
    neither the store nor the cache changes; or that update has returned,
    and only then [deleteFile] is called, the store already holding the
    update.  The earlier version rotates no key: its runs are a throwing
    [Files.removeByUuid] and nothing else, or [Files.removeByUuid]
    returning followed by [deleteFile]. *)
Theorem remove_updates_store_before_deleting_file (P : Platform) :
  (∀ (d : Document) (w : World),
     let rotation :=
       FilesUpdateByUuid (uuid d) (mkPatch (Some removed) (Some (uuid_at (uuids w)))) in
     (∃ e, result_of (Hardened.remove (d, w)) = Thrown e
           ∧ events_since w (world_of (Hardened.remove (d, w))) = [mkEvent rotation false]
           ∧ store (world_of (Hardened.remove (d, w))) = store w
           ∧ cache (world_of (Hardened.remove (d, w))) = cache w)
     ∨ (∃ ok, events_since w (world_of (Hardened.remove (d, w)))
              = [mkEvent rotation true; mkEvent (DeleteFile (filePath d)) ok]
              ∧ store (world_of (Hardened.remove (d, w)))
                = alter (apply_patch (mkPatch (Some removed) (Some (uuid_at (uuids w)))))
                    (uuid d) (store w)))
  ∧ (∀ (d : LegacyDocument) (w : World),
     (∃ e, result_of (Legacy.remove (d, w)) = Thrown e
           ∧ events_since w (world_of (Legacy.remove (d, w)))
             = [mkEvent (FilesRemoveByUuid (l_uuid d)) false]
           ∧ cache (world_of (Legacy.remove (d, w))) = cache w)
     ∨ (∃ ok, events_since w (world_of (Legacy.remove (d, w)))
              = [mkEvent (FilesRemoveByUuid (l_uuid d)) true;
                 mkEvent (DeleteFile (l_filePath d)) ok])).
Proof.
  split; intros d w; unfold_methods; cbn.
  - destruct (hd None (faults w)) as [f|]; cbn.
    + left. eexists. rewrite events_since_app. done.
    + right. destruct (hd None (tl (faults w))) as [f|]; cbn;
        eexists; rewrite <- app_assoc, events_since_app; done.
  - destruct (hd None (faults w)) as [f|]; cbn.
    + left. eexists. rewrite events_since_app. done.
    + right. destruct (hd None (tl (faults w))) as [f|]; cbn;
        eexists; rewrite <- app_assoc, events_since_app; done.
Qed.

(** ** Order of the steps of [save] *)

Lemma split_nil {A} (pre post : list A) (x : A) : [] = (pre ++ x :: post)%list → False.
Proof. by destruct pre. Qed.

Lemma split_cons {A} (y : A) (l pre post : list A) (x : A) :
  y :: l = (pre ++ x :: post)%list →
  (pre = [] ∧ x = y ∧ post = l) ∨ (∃ pre', pre = y :: pre' ∧ l = (pre' ++ x :: post)%list).
Proof.
  destruct pre as [|p pre]; cbn; intros Heq; simplify_eq.
  - by left.
  - right. by eexists.
Qed.

(** All the ways of cutting a concrete trace at one of its events. *)
Ltac cut_trace H :=
  first
    [ apply split_nil in H; contradiction
    | let pre' := fresh "pre" in
      apply split_cons in H as [(-> & -> & ->) | (pre' & -> & H)];
      [ | cut_trace H ] ].

Section SaveRuns.
Import Demo Scenario.

(** C7, counterexample.  In this run of [save] the state [downloaded] is
    written to the store (fourth call, which returns) before the metadata
    refresh is attempted (fifth call), and the refresh then fails: the
    write did not wait for a successful refresh. *)
Lemma save_writes_downloaded_before_refresh :
  take 5 (trace (world_of refresh_failure_run))
  = [mkEvent (DownloadDocument "wg-1" "doc-1") true;
     mkEvent (WriteFile "/srv/files/doc-1" content) true;
     mkEvent (FilesGetByUuid "doc-1") true;
     mkEvent (FilesCreate "doc-1"
                (mkFileRec (Some downloaded) (Some "0") "wg-1" None None None)) true;
     mkEvent (GetNode "wg-1" "doc-1") false]
  ∧ result_of refresh_failure_run = Thrown unavailable.
Proof. vm_compute. done. Qed.

End SaveRuns.

(** C7, as the code has it.  In every run of the hardened [save]: the
    first call is the download; no call writes state [downloading]; a call
    that writes state [downloaded] comes right after the download, the
    cache write and the store lookup have all returned, and before any
    metadata refresh; the metadata refresh ([getNode]) is attempted only
    right after a write of [downloaded] has returned; and when [save]
    returns, its last call is the publication of the success notification
    carrying the object, the only publication of the run, made after the
    refresh returned. *)
Theorem save_downloads_then_marks_then_refreshes (P : Platform) (d : Document) (w : World) :
  let x := Hardened.save (d, w) in
  let evs := events_since w (world_of x) in
  (∃ ok rest, evs = mkEvent (DownloadDocument (workGroup d) (uuid d)) ok :: rest)
  ∧ Forall (λ ev, ¬ writes_state downloading ev) evs
  ∧ (∀ pre ev post, evs = (pre ++ ev :: post)%list → writes_state downloaded ev →
       ∃ data, pre = [mkEvent (DownloadDocument (workGroup d) (uuid d)) true;
                      mkEvent (WriteFile (filePath d) data) true;
                      mkEvent (FilesGetByUuid (uuid d)) true])
  ∧ (∀ pre ev post, evs = (pre ++ ev :: post)%list → is_get_node ev →
       ∃ wr, last pre = Some wr ∧ writes_state downloaded wr ∧ ev_ok wr = true)
  ∧ (result_of x = Returned tt →
       ∃ pre, evs = (pre ++ [mkEvent (Publish DOCUMENT_DOWNLOADED (this_of x) None) true])%list
              ∧ Forall (λ ev, ¬ is_publish ev) pre
              ∧ ∃ get, get ∈ pre ∧ is_get_node get ∧ ev_ok get = true).
Proof.
  intros x evs. subst x evs.
  step_through.
  all: rewrite <- ?app_assoc; rewrite events_since_app; cbn -[alter insert delete lookup].
  all: split; [do 2 eexists; reflexivity|].
  all: split; [repeat first [apply Forall_nil_2 | apply Forall_cons_2];
               cbn; intros ?; by simplify_eq|].
  all: split; [intros pre ev post Heq Hw; cut_trace Heq; cbn in Hw; simplify_eq;
               try done; by eexists|].
  all: split; [intros pre ev post Heq Hw; cut_trace Heq; cbn in Hw; simplify_eq;
               try done; by eexists|].
  all: intros Hret; simplify_eq.
  all: eexists (_ :: _ :: _ :: _ :: _ :: []); split; [reflexivity|].
  all: split; [repeat first [apply Forall_nil_2 | apply Forall_cons_2];
               cbn; intros ?; by simplify_eq|].
  all: eexists; split; [apply list_elem_of_lookup; by exists 4%nat | done].
Qed.

(** ** Rollback of a failed fetch *)

Section RollbackRuns.
Import Demo Scenario.

(** C4, counterexample.  A fetch of the earlier version whose download is
    rejected: the error is thrown again, but none of the five calls of the
    run publishes anything, so no failure notification exists. *)
Lemma legacy_failed_fetch_publishes_nothing :
  result_of legacy_fetch_failure_run = Thrown unavailable
  ∧ trace (world_of legacy_fetch_failure_run)
    = [mkEvent (FilesGetByUuid "doc-1") true;
       mkEvent (FilesCreate "doc-1"
                  (mkFileRec (Some downloading) None "wg-1" None None None)) true;
       mkEvent (DownloadDocument "wg-1" "doc-1") false;
       mkEvent (FilesRemoveByUuid "doc-1") true;
       mkEvent (DeleteFile "/srv/files/doc-1") true].
Proof. vm_compute. done. Qed.

End RollbackRuns.

(** C4, as the code has it.  In the hardened version, when the download is
    rejected with [e], or the cache write throws [e] (possibly leaving
    bytes behind), and the two calls of the rollback (the store update and
    the file deletion) go through: [save] throws [e] itself, the record of
    the document, when one exists, ends in state [removed] with a newly
    generated key, no file is left at the path of the document, and the
    last call of the run publishes the failure notification carrying the
    object and [e].  The earlier version publishes nothing, in any run of
    its [save]. *)
Theorem save_failure_rolls_back (P : Platform) :
  (∀ (d : Document) (w : World) (e : JsError),
     (bytes_reply w (workGroup d) (uuid d) = Rejects e
      ∧ next_fault w = None ∧ next_fault (consume w) = None)
     ∨ (∃ data f,
           bytes_reply w (workGroup d) (uuid d) = Resolves data
           ∧ next_fault w = Some f ∧ fault_error f = e
           ∧ next_fault (consume w) = None ∧ next_fault (consume (consume w)) = None) →
     let x := Hardened.save (d, w) in
     result_of x = Thrown e
     ∧ (∀ old, store w !! uuid d = Some old →
          ∃ new, store (world_of x) !! uuid d = Some new
                 ∧ rec_state new = Some removed
                 ∧ rec_key new = Some (uuid_at (uuids w)))
     ∧ cache (world_of x) !! filePath d = None
     ∧ last (trace (world_of x))
       = Some (mkEvent (Publish DOCUMENT_DOWNLOAD_FAILED d (Some e)) true)
     ∧ this_of x = d)
  ∧ (∀ (d : LegacyDocument) (w : World),
       Forall (λ ev, ¬ is_publish ev) (events_since w (world_of (Legacy.save (d, w))))).
Proof.
  split.
  - intros d w e Hfail x. subst x. unfold_methods. cbn in Hfail.
    destruct Hfail as [(Hdl & Hf0 & Hf1) | (data & f & Hdl & Hf0 & <- & Hf1 & Hf2)];
      cbn -[alter insert delete lookup]; rewrite Hdl; cbn -[alter insert delete lookup];
      rewrite Hf0; cbn -[alter insert delete lookup];
      rewrite Hf1; cbn -[alter insert delete lookup].
    + split; [done|]. split; [|split; [apply lookup_delete_eq | split; [by rewrite last_snoc | done]]].
      intros old Hold. eexists.
      split; [rewrite lookup_alter; case_decide; [by rewrite Hold | done] |]. done.
    + rewrite Hf2. cbn -[alter insert delete lookup].
      split; [done|]. split; [|split; [apply lookup_delete_eq | split; [by rewrite last_snoc | done]]].
      intros old Hold. eexists.
      split; [rewrite lookup_alter; case_decide; [by rewrite Hold | done] |]. done.
  - intros d w. step_through.
    all: rewrite <- ?app_assoc; rewrite events_since_app.
    all: repeat first [apply Forall_nil_2 | apply Forall_cons_2]; cbn; tauto.
Qed.

Section RollbackWitness.
Import Demo Scenario.

Lemma save_failure_rolls_back_witness :
  result_of (Hardened.save (doc1, disk_full_world)) = Thrown disk_full
  ∧ cache (world_of (Hardened.save (doc1, disk_full_world))) !! "/srv/files/doc-1" = None
  ∧ ∃ new, store (world_of (Hardened.save (doc1, disk_full_world))) !! "doc-1" = Some new
           ∧ rec_state new = Some removed
           ∧ rec_key new = Some "1".
Proof.
  pose proof (proj1 (save_failure_rolls_back platform) doc1 disk_full_world disk_full)
    as Hroll.
  destruct Hroll as (Hthrown & Hrecord & Hcache & _).
  - right. exists content, (mkFault disk_full (Some [Byte.x50])).
    vm_compute. repeat split; reflexivity.
  - split; [exact Hthrown | split; [exact Hcache|]].
    apply (Hrecord (mkFileRec (Some downloaded) (Some "0") "wg-1" None None None)).
    vm_compute. reflexivity.
Defined.

End RollbackWitness.

Section OrderWitness.
Import Demo Scenario.

Lemma save_downloads_then_marks_then_refreshes_witness :
  ∃ pre,
    events_since (online []) (world_of (Hardened.save (doc1, online [])))
    = (pre ++ [mkEvent (Publish DOCUMENT_DOWNLOADED
                          (this_of (Hardened.save (doc1, online []))) None) true])%list
    ∧ Forall (λ ev, ¬ is_publish ev) pre
    ∧ ∃ get, get ∈ pre ∧ is_get_node get ∧ ev_ok get = true.
Proof.
  apply (proj2 (proj2 (proj2 (proj2
           (save_downloads_then_marks_then_refreshes platform doc1 (online [])))))).
  vm_compute. reflexivity.
Defined.

End OrderWitness.

(** ** The trace only grows *)

Lemma remove_extends_trace (P : Platform) (d : Document) (w : World) :
  trace (world_of (Hardened.remove (d, w)))
  = (trace w ++ events_since w (world_of (Hardened.remove (d, w))))%list.
Proof.
  step_through; rewrite <- ?app_assoc; by rewrite events_since_app.
Qed.

Lemma save_extends_trace (P : Platform) (d : Document) (w : World) :
  trace (world_of (Hardened.save (d, w)))
  = (trace w ++ events_since w (world_of (Hardened.save (d, w))))%list.
Proof.
  step_through; rewrite <- ?app_assoc; by rewrite events_since_app.
Qed.

(** ** What the earlier version's [remove] does to the record *)

(** The earlier version hands the record to [Files.removeByUuid]: when that
    call returns, the store is whatever that function makes of it; when it
    throws, the store is unchanged. *)
Lemma legacy_remove_delegates (P : Platform) (d : LegacyDocument) (w : World) :
  (next_fault w = None →
   store (world_of (Legacy.remove (d, w))) = removeByUuid_effect (l_uuid d) (store w))
  ∧ (is_Some (next_fault w) → store (world_of (Legacy.remove (d, w))) = store w).
Proof.
  unfold_methods. cbn. split.
  - intros ->. cbn. by destruct (hd None (tl (faults w))).
  - intros [f ->]. done.
Qed.

(** * Further properties of the class *)

(** ** [load] *)

(** X1. [load] copies the state and the key of the stored record into the
    object and changes nothing else; when no record exists, or when the
    store call throws, the object is left as it was (a state or key it
    already holds is not reset); the store, the cache and the uuid
    generator are never changed. *)
Theorem load_reads_the_stored_state_and_key (P : Platform) (d : Document) (w : World) :
  (∀ r, next_fault w = None → store w !! uuid d = Some r →
        result_of (Hardened.load (d, w)) = Returned tt
        ∧ this_of (Hardened.load (d, w))
          = Hardened.set_key (rec_key r) (Hardened.set_state (rec_state r) d))
  ∧ (next_fault w = None → store w !! uuid d = None →
        result_of (Hardened.load (d, w)) = Returned tt
        ∧ this_of (Hardened.load (d, w)) = d)
  ∧ (∀ f, next_fault w = Some f →
        result_of (Hardened.load (d, w)) = Thrown (fault_error f)
        ∧ this_of (Hardened.load (d, w)) = d)
  ∧ store (world_of (Hardened.load (d, w))) = store w
  ∧ cache (world_of (Hardened.load (d, w))) = cache w
  ∧ uuids (world_of (Hardened.load (d, w))) = uuids w.
Proof.
  unfold_methods. cbn. repeat split.
  - rewrite H. cbn. by rewrite H0.
  - rewrite H. cbn. by rewrite H0.
  - rewrite H. cbn. by rewrite H0.
  - rewrite H. cbn. by rewrite H0.
  - by rewrite H.
  - by rewrite H.
  - destruct (hd None (faults w)); cbn; [done|]. by destruct (store w !! uuid d).
  - destruct (hd None (faults w)); cbn; [done|]. by destruct (store w !! uuid d).
  - destruct (hd None (faults w)); cbn; [done|]. by destruct (store w !! uuid d).
Qed.

Section LoadRun.
Import Demo Cases.

Lemma load_reads_the_stored_state_and_key_witness :
  this_of (Hardened.load (doc1, fetched_world))
  = Hardened.set_key (Some "0") (Hardened.set_state (Some downloaded) doc1)
  ∧ this_of (Hardened.load (fetched_doc, online [])) = fetched_doc.
Proof.
  split.
  - apply (proj1 (load_reads_the_stored_state_and_key platform doc1 fetched_world)
             (mkFileRec (Some downloaded) (Some "0") "wg-1" None None None)).
    + vm_compute. reflexivity.
    + vm_compute. reflexivity.
  - apply (proj1 (proj2 (load_reads_the_stored_state_and_key platform fetched_doc (online [])))).
    + vm_compute. reflexivity.
    + vm_compute. reflexivity.
Defined.

End LoadRun.

(** X2. What [setState] stores, [load] reads back: after a [setState(s)]
    that returned, a [load] on any object with the same identifier (whose
    store call goes through) reports state [s], and the key it reports is
    the key of the record that existed before, or the newly generated one
    when none existed. *)
Theorem load_after_setState (P : Platform) (s : DocState) (d d2 : Document) (w : World) :
  uuid d2 = uuid d →
  result_of (Hardened.setState s (d, w)) = Returned tt →
  next_fault (world_of (Hardened.setState s (d, w))) = None →
  result_of (Hardened.load (d2, world_of (Hardened.setState s (d, w)))) = Returned tt
  ∧ state (this_of (Hardened.load (d2, world_of (Hardened.setState s (d, w))))) = Some s
  ∧ key (this_of (Hardened.load (d2, world_of (Hardened.setState s (d, w)))))
    = match store w !! uuid d with
      | Some old => rec_key old
      | None => Some (uuid_at (uuids w))
      end.
Proof.
  intros Hid. unfold_methods. cbn. rewrite Hid.
  destruct (hd None (faults w)) as [f|]; cbn; [done|].
  destruct (store w !! uuid d) as [old|] eqn:Hold; cbn;
    (destruct (hd None (tl (faults w))) as [f|]; cbn; [done|]);
    intros _ ->; cbn.
  - rewrite lookup_alter. case_decide; [|done]. rewrite Hold. done.
  - rewrite lookup_insert_eq. done.
Qed.

Section LoadAfterSetStateRun.
Import Demo Cases.

Lemma load_after_setState_witness :
  state (this_of (Hardened.load
                    (doc1, world_of (Hardened.setState removed (doc1, fetched_world)))))
  = Some removed
  ∧ key (this_of (Hardened.load
                    (doc1, world_of (Hardened.setState removed (doc1, fetched_world)))))
    = Some "0".
Proof.
  destruct (load_after_setState platform removed doc1 doc1 fetched_world eq_refl)
    as (_ & Hstate & Hkey).
  - vm_compute. reflexivity.
  - vm_compute. reflexivity.
  - split; [exact Hstate | exact Hkey].
Defined.

End LoadAfterSetStateRun.

(** ** A fetch that goes through *)

(** X3. When the download resolves with [data], the metadata refresh
    resolves and the three store and file-system calls go through, the
    hardened [save] returns; the cache then holds exactly [data] at the path
    of the document (whatever it held before), the record and the object
    are in state [downloaded], [isDownloaded] is true and the two url paths
    are set.  The key of a record that already existed is kept (a new fetch
    does not rotate it, and the object keeps whatever key it held); without
    a record a new key is generated, stored and held by the object. *)
Theorem save_makes_the_document_usable
  (P : Platform) (d : Document) (w : World) (data : list Byte.byte) (n : Node) :
  bytes_reply w (workGroup d) (uuid d) = Resolves data →
  node_reply w (workGroup d) (uuid d) = Resolves n →
  next_fault w = None →
  next_fault (consume w) = None →
  next_fault (consume (consume w)) = None →
  let x := Hardened.save (d, w) in
  result_of x = Returned tt
  ∧ cache (world_of x) = <[filePath d := data]> (cache w)
  ∧ state (this_of x) = Some downloaded
  ∧ Hardened.isDownloaded (this_of x) (world_of x) = true
  ∧ downloadUrlPath (this_of x) = Some ("/files/" ++ uuid d)
  ∧ callbackUrlPath (this_of x)
    = Some ("/api/documents/track?workGroupUuid=" ++ workGroup d
            ++ "&documentUuid=" ++ uuid d)
  ∧ (∃ r, store (world_of x) !! uuid d = Some r
          ∧ rec_state r = Some downloaded
          ∧ rec_key r = match store w !! uuid d with
                        | Some old => rec_key old
                        | None => Some (uuid_at (uuids w))
                        end)
  ∧ key (this_of x) = match store w !! uuid d with
                      | Some _ => key d
                      | None => Some (uuid_at (uuids w))
                      end.
Proof.
  intros Hdl Hnode Hf0 Hf1 Hf2 x. subst x. unfold_methods. cbn in Hf0, Hf1, Hf2.
  cbn -[alter insert delete lookup]. rewrite Hdl. cbn -[alter insert delete lookup].
  rewrite Hf0. cbn -[alter insert delete lookup].
  rewrite Hf1. cbn -[alter insert delete lookup].
  destruct (store w !! uuid d) as [old|] eqn:Hold; cbn -[alter insert delete lookup];
    rewrite Hf2; cbn -[alter insert delete lookup];
    rewrite Hnode; cbn -[alter insert delete lookup];
    unfold Hardened.isDownloaded, existsSync; cbn -[alter insert delete lookup];
    rewrite lookup_insert_eq; cbn -[alter insert delete lookup];
    repeat split.
  - eexists. split; [rewrite lookup_alter; case_decide; [by rewrite Hold | done] |]. done.
  - eexists. split; [by rewrite lookup_insert_eq |]. done.
Qed.

Section UsableRun.
Import Demo Cases.

Lemma save_makes_the_document_usable_witness :
  Hardened.isDownloaded (this_of (Hardened.save (doc1, online [])))
    (world_of (Hardened.save (doc1, online []))) = true
  ∧ key (this_of (Hardened.save (doc1, online []))) = Some "0".
Proof.
  destruct (save_makes_the_document_usable platform doc1 (online []) content report
              eq_refl eq_refl eq_refl eq_refl eq_refl)
    as (_ & _ & _ & Husable & _ & _ & _ & Hkey).
  split; [exact Husable | exact Hkey].
Defined.

End UsableRun.

(** ** A rollback that fails *)

(** X4. When the download is rejected with [e] and the store update of the
    rollback throws, [save] throws the error of the store, not [e]; no
    notification is published, the file is not deleted, and the store and
    the cache are what they were.  When the store update goes through and
    the file deletion throws, [save] throws the error of the deletion; the
    record has been updated, the cache is what it was, and again nothing
    is published. *)
Theorem save_throws_the_error_of_a_failed_rollback
  (P : Platform) (d : Document) (w : World) (e : JsError) (f : Fault) :
  bytes_reply w (workGroup d) (uuid d) = Rejects e →
  (next_fault w = Some f →
     result_of (Hardened.save (d, w)) = Thrown (fault_error f)
     ∧ store (world_of (Hardened.save (d, w))) = store w
     ∧ cache (world_of (Hardened.save (d, w))) = cache w
     ∧ map ev_ok (events_since w (world_of (Hardened.save (d, w)))) = [false; false]
     ∧ Forall (λ ev, ¬ is_publish ev) (events_since w (world_of (Hardened.save (d, w)))))
  ∧ (next_fault w = None → next_fault (consume w) = Some f →
     result_of (Hardened.save (d, w)) = Thrown (fault_error f)
     ∧ store (world_of (Hardened.save (d, w)))
       = alter (apply_patch (mkPatch (Some removed) (Some (uuid_at (uuids w)))))
           (uuid d) (store w)
     ∧ cache (world_of (Hardened.save (d, w))) = cache w
     ∧ map ev_ok (events_since w (world_of (Hardened.save (d, w)))) = [false; true; false]
     ∧ Forall (λ ev, ¬ is_publish ev) (events_since w (world_of (Hardened.save (d, w))))).
Proof.
  intros Hdl. split.
  - intros Hf0. unfold_methods. cbn in Hf0. cbn -[alter insert delete lookup].
    rewrite Hdl. cbn -[alter insert delete lookup].
    rewrite Hf0. cbn -[alter insert delete lookup].
    rewrite <- app_assoc, events_since_app. cbn.
    repeat split. repeat first [apply Forall_nil_2 | apply Forall_cons_2]; cbn; tauto.
  - intros Hf0 Hf1. unfold_methods. cbn in Hf0, Hf1. cbn -[alter insert delete lookup].
    rewrite Hdl. cbn -[alter insert delete lookup].
    rewrite Hf0. cbn -[alter insert delete lookup].
    rewrite Hf1. cbn -[alter insert delete lookup].
    rewrite <- !app_assoc, events_since_app. cbn -[alter insert delete lookup].
    repeat split. repeat first [apply Forall_nil_2 | apply Forall_cons_2]; cbn; tauto.
Qed.

Section FailedRollbackRun.
Import Demo Cases.

Lemma save_throws_the_error_of_a_failed_rollback_witness :
  result_of (Hardened.save (doc1, offline unavailable [Some (mkFault disk_full None)]))
  = Thrown disk_full.
Proof.
  apply (proj1 (save_throws_the_error_of_a_failed_rollback platform doc1
                  (offline unavailable [Some (mkFault disk_full None)])
                  unavailable (mkFault disk_full None) eq_refl)).
  vm_compute. reflexivity.
Defined.

End FailedRollbackRun.

(** ** A fetch whose metadata refresh fails *)


Section FailedRefreshRun.
Import Demo Cases.


End FailedRefreshRun.

(** ** [remove] and the object *)

(** X6. [remove] never assigns to the object: after it, the object holds
    the state and the key it held before, whatever happened to the record.
    So after a [remove] that goes through on an object in state
    [downloaded], the record is [removed] under a new key and the file is
    gone ([isDownloaded] is false), while the object still says
    [downloaded] and a payload built from it carries the key it held
    before. *)
Theorem remove_leaves_the_object_as_it_was (P : Platform) (d : Document) (w : World) :
  this_of (Hardened.remove (d, w)) = d
  ∧ (∀ old, store w !! uuid d = Some old →
       next_fault w = None → next_fault (consume w) = None →
       result_of (Hardened.remove (d, w)) = Returned tt
       ∧ Hardened.isDownloaded (this_of (Hardened.remove (d, w)))
           (world_of (Hardened.remove (d, w))) = false
       ∧ (∃ r, store (world_of (Hardened.remove (d, w))) !! uuid d = Some r
               ∧ rec_state r = Some removed
               ∧ rec_key r = Some (uuid_at (uuids w)))
       ∧ pl_key (payload (Hardened.buildDocumentserverPayload
                            (this_of (Hardened.remove (d, w))))) = key d).
Proof.
  split.
  - unfold_methods. cbn.
    destruct (hd None (faults w)); cbn; [done|].
    by destruct (hd None (tl (faults w))).
  - intros old Hold Hf0 Hf1. unfold_methods. cbn in Hf0, Hf1.
    cbn -[alter insert delete lookup]. rewrite Hf0. cbn -[alter insert delete lookup].
    rewrite Hf1. cbn -[alter insert delete lookup].
    repeat split.
    + unfold Hardened.isDownloaded, existsSync. cbn -[alter insert delete lookup].
      rewrite lookup_delete_eq. cbn. done.
    + eexists. split; [rewrite lookup_alter; case_decide; [by rewrite Hold | done] |]. done.
    + unfold Hardened.buildDocumentserverPayload.
      by destruct (negb (enable signature_browser)).
Qed.

Section StaleObjectRun.
Import Demo Cases.

Lemma remove_leaves_the_object_as_it_was_witness :
  state (this_of (Hardened.remove (fetched_doc, fetched_world))) = Some downloaded
  ∧ Hardened.isDownloaded (this_of (Hardened.remove (fetched_doc, fetched_world)))
      (world_of (Hardened.remove (fetched_doc, fetched_world))) = false
  ∧ pl_key (payload (Hardened.buildDocumentserverPayload
                       (this_of (Hardened.remove (fetched_doc, fetched_world)))))
    = Some "0".
Proof.
  pose proof (remove_leaves_the_object_as_it_was platform fetched_doc fetched_world)
    as [Hsame Hgone].
  destruct (Hgone (mkFileRec (Some downloaded) (Some "0") "wg-1" None None None))
    as (_ & Hfile & _ & Hkey).
  - vm_compute. reflexivity.
  - vm_compute. reflexivity.
  - vm_compute. reflexivity.
  - split; [by rewrite Hsame | split; [exact Hfile | exact Hkey]].
Defined.

End StaleObjectRun.

(** ** [populateMetadata] when the gateway answers *)

(** X7. When [getNode] resolves with a node, the hardened
    [populateMetadata] returns after that single call; it copies the
    properties of the node into the object together with the extension and
    the type computed from the name; it leaves the state, the key, the file
    path and the user of the object, the store, the cache and the uuid
    generator untouched.  The two url paths are set only if the document
    is downloaded at that moment; otherwise the object keeps the ones it
    had. *)
Theorem populateMetadata_copies_the_node
  (P : Platform) (d : Document) (w : World) (n : Node) :
  node_reply w (workGroup d) (uuid d) = Resolves n →
  let x := Hardened.populateMetadata (d, w) in
  result_of x = Returned tt
  ∧ events_since w (world_of x) = [mkEvent (GetNode (workGroup d) (uuid d)) true]
  ∧ (name (this_of x), parent (this_of x), size (this_of x), modificationDate (this_of x))
    = (Some (node_name n), Some (node_parent n), Some (node_size n),
       Some (node_modificationDate n))
  ∧ fileType (this_of x) = Some (getFileExtension (node_name n))
  ∧ documentType (this_of x) = Some (getFileType (node_name n))
  ∧ (state (this_of x), key (this_of x), filePath (this_of x), user (this_of x))
    = (state d, key d, filePath d, user d)
  ∧ (store (world_of x), cache (world_of x), uuids (world_of x))
    = (store w, cache w, uuids w)
  ∧ (Hardened.isDownloaded d w = true →
       downloadUrlPath (this_of x) = Some ("/files/" ++ uuid d)
       ∧ callbackUrlPath (this_of x)
         = Some ("/api/documents/track?workGroupUuid=" ++ workGroup d
                 ++ "&documentUuid=" ++ uuid d))
  ∧ (Hardened.isDownloaded d w = false →
       downloadUrlPath (this_of x) = downloadUrlPath d
       ∧ callbackUrlPath (this_of x) = callbackUrlPath d).
Proof.
  intros Hnode x. subst x. unfold_methods. cbn -[alter insert delete lookup].
  rewrite Hnode. cbn -[alter insert delete lookup].
  rewrite events_since_app.
  replace (Hardened.isDownloaded d (log (GetNode (workGroup d) (uuid d)) true w))
    with (Hardened.isDownloaded d w) by done.
  repeat split; by rewrite H.
Qed.

Section PopulateRun.
Import Demo Cases.

Lemma populateMetadata_copies_the_node_witness :
  name (this_of (Hardened.populateMetadata (doc1, online []))) = Some "report.docx"
  ∧ downloadUrlPath (this_of (Hardened.populateMetadata (doc1, online []))) = None.
Proof.
  destruct (populateMetadata_copies_the_node platform doc1 (online []) report eq_refl)
    as (_ & _ & Hnode & _ & _ & _ & _ & _ & Hkept).
  split.
  - exact (f_equal (λ t, fst (fst (fst t))) Hnode).
  - apply Hkept. reflexivity.
Defined.

End PopulateRun.

(** ** Operations on one document leave the others alone *)

(** X8. Whatever operation of the hardened class runs on an object, and
    however it ends, the records of all other identifiers and the cached
    files at all other paths are what they were. *)
Theorem operations_touch_one_document_only
  (P : Platform) (op : Lifecycle.Op) (d : Document) (w : World) :
  (∀ id, id ≠ uuid d →
         store (world_of (Lifecycle.perform op (d, w))) !! id = store w !! id)
  ∧ (∀ path, path ≠ filePath d →
         cache (world_of (Lifecycle.perform op (d, w))) !! path = cache w !! path).
Proof.
  split.
  - intros id Hid. destruct op; unfold Lifecycle.perform; step_through;
      rewrite ?lookup_alter_ne, ?lookup_insert_ne by done; done.
  - intros path Hpath. destruct op; unfold Lifecycle.perform; step_through;
      rewrite ?lookup_delete_ne, ?lookup_insert_ne by done;
      rewrite ?lookup_delete_ne, ?lookup_insert_ne by done; done.
Qed.

Section FrameRun.
Import Demo Cases Lifecycle.

Lemma operations_touch_one_document_only_witness :
  store (world_of (perform Remove (Hardened.new "doc-2" "wg-1" alice, fetched_world)))
  !! "doc-1"
  = Some (mkFileRec (Some downloaded) (Some "0") "wg-1" None None None).
Proof.
  rewrite (proj1 (operations_touch_one_document_only platform Remove
                    (Hardened.new "doc-2" "wg-1" alice) fetched_world) "doc-1").
  - vm_compute. reflexivity.
  - vm_compute. discriminate.
Defined.

End FrameRun.

(** ** No two documents share a key *)

Section UniqueKeys.
Context `{Platform}.
Hypothesis uuid_at_inj : Inj (=) (=) uuid_at.
Import Keys.

Lemma well_keyed_same (w w' : World) :
  (uuids w ≤ uuids w')%nat →
  (∀ id, store w' !! id = store w !! id) →
  well_keyed w → well_keyed w'.
Proof.
  intros Hn Hst [Hgen Huniq]. split.
  - intros id r Hr. rewrite Hst in Hr.
    destruct (Hgen id r Hr) as (i & Hi & Hk). exists i. split; [lia | done].
  - intros id1 id2 r1 r2 Hr1 Hr2. rewrite Hst in Hr1, Hr2. by eapply Huniq.
Qed.

Lemma well_keyed_alter_state (w w' : World) (id : string) (p : Patch) :
  (uuids w ≤ uuids w')%nat →
  patch_key p = None →
  store w' = alter (apply_patch p) id (store w) →
  well_keyed w → well_keyed w'.
Proof.
  intros Hn Hp Hst [Hgen Huniq].
  assert (Hsame : ∀ id' r', store w' !! id' = Some r' →
            ∃ r, store w !! id' = Some r ∧ rec_key r' = rec_key r).
  { intros id' r'. rewrite Hst, lookup_alter. case_decide as Hid.
    - subst id'. destruct (store w !! id) as [r|]; [|done].
      cbn. intros [= <-]. exists r. split; [done|]. cbn. by rewrite Hp.
    - intros Hr'. by exists r'. }
  split.
  - intros id' r' Hr'. destruct (Hsame id' r' Hr') as (r & Hr & ->).
    destruct (Hgen id' r Hr) as (i & Hi & Hk). exists i. split; [lia | done].
  - intros id1 id2 r1 r2 Hr1 Hr2.
    destruct (Hsame id1 r1 Hr1) as (r1' & Hr1' & ->).
    destruct (Hsame id2 r2 Hr2) as (r2' & Hr2' & ->).
    by eapply Huniq.
Qed.

(** One record receives the next value of the generator; the others stay. *)
Lemma well_keyed_rekey (w w' : World) (id : string) (r' : FileRec) :
  (uuids w < uuids w')%nat →
  store w' !! id = Some r' →
  rec_key r' = Some (uuid_at (uuids w)) →
  (∀ id2, id2 ≠ id → store w' !! id2 = store w !! id2) →
  well_keyed w → well_keyed w'.
Proof.
  intros Hn Hr' Hk Hrest [Hgen Huniq].
  assert (Hfresh : ∀ id2 r2, store w !! id2 = Some r2 →
            rec_key r2 ≠ Some (uuid_at (uuids w))).
  { intros id2 r2 Hr2 Heq. destruct (Hgen id2 r2 Hr2) as (i & Hi & Hki).
    rewrite Hki in Heq. injection Heq as Heq. apply uuid_at_inj in Heq. lia. }
  split.
  - intros id1 r1 Hr1. destruct (decide (id1 = id)) as [->|Hne].
    + simplify_eq. exists (uuids w). split; [lia | done].
    + rewrite Hrest in Hr1 by done.
      destruct (Hgen id1 r1 Hr1) as (i & Hi & Hki). exists i. split; [lia | done].
  - intros id1 id2 r1 r2 Hr1 Hr2 Heq.
    destruct (decide (id1 = id)) as [->|Hne1], (decide (id2 = id)) as [->|Hne2];
      [done | | |].
    + simplify_eq. rewrite Hrest in Hr2 by done.
      exfalso. eapply Hfresh; [exact Hr2 | congruence].
    + simplify_eq. rewrite Hrest in Hr1 by done.
      exfalso. eapply Hfresh; [exact Hr1 | congruence].
    + rewrite Hrest in Hr1, Hr2 by done. by eapply Huniq.
Qed.

Lemma maintains_ret {T A} (I : World → Prop) (a : A) : maintains I (@ret T A a).
Proof. by intros s. Qed.

Lemma maintains_throw {T A} (I : World → Prop) (e : JsError) : maintains I (@throw T A e).
Proof. by intros s. Qed.

Lemma maintains_read {T A} (I : World → Prop) (f : T → A) : maintains I (read f).
Proof. by intros s. Qed.

Lemma maintains_self {T} (I : World → Prop) : maintains I (@self T).
Proof. by intros s. Qed.

Lemma maintains_bind {T A B} (I : World → Prop) (m : Method T A) (k : A → Method T B) :
  maintains I m → (∀ a, maintains I (k a)) → maintains I (bind m k).
Proof.
  intros Hm Hk s Hs. specialize (Hm s Hs). unfold bind, world_of in *.
  destruct (m s) as [[a|e] s']; cbn in *; [|done]. by apply Hk.
Qed.

Lemma maintains_try_catch {T A} (I : World → Prop) (m : Method T A)
  (h : JsError → Method T A) :
  maintains I m → (∀ e, maintains I (h e)) → maintains I (try_catch m h).
Proof.
  intros Hm Hh s Hs. specialize (Hm s Hs). unfold try_catch, world_of in *.
  destruct (m s) as [[a|e] s']; cbn in *; [done|]. by apply Hh.
Qed.

Ltac kept := eapply well_keyed_same; [| |eassumption]; [cbn; lia | done].

Lemma well_keyed_downloadDocument {T} (wg id : string) :
  maintains well_keyed (@downloadDocument T wg id).
Proof.
  intros [d w] Hw. unfold_methods. cbn in *.
  destruct (bytes_reply w wg id); kept.
Qed.

Lemma well_keyed_writeFile {T} (path : string) (data : list Byte.byte) :
  maintains well_keyed (@writeFile T path data).
Proof.
  intros [d w] Hw. unfold_methods. cbn in *.
  destruct (hd None (faults w)); kept.
Qed.

Lemma well_keyed_publish {T} t doc err : maintains well_keyed (@publish T t doc err).
Proof. intros [d w] Hw. unfold_methods. cbn in *. kept. Qed.

Lemma well_keyed_populateMetadata : maintains well_keyed Hardened.populateMetadata.
Proof.
  intros [d w] Hw. unfold_methods. cbn in *.
  destruct (node_reply w (workGroup d) (uuid d)) as [n|e]; cbn; [kept|].
  destruct (is_not_found e); kept.
Qed.

Lemma well_keyed_update (url : string) : maintains well_keyed (Hardened.update url).
Proof.
  intros [d w] Hw. unfold_methods. cbn in *.
  destruct (hd None (faults w)); kept.
Qed.

Lemma well_keyed_load : maintains well_keyed Hardened.load.
Proof.
  intros [d w] Hw. unfold_methods. cbn in *.
  destruct (hd None (faults w)); [kept|].
  destruct (store w !! uuid d); kept.
Qed.

Lemma well_keyed_canBeEdited : maintains well_keyed Hardened.canBeEdited.
Proof.
  intros [d w] Hw. unfold_methods. cbn in *.
  destruct (permission_reply w (user d) (workGroup d)); kept.
Qed.

Lemma well_keyed_setState (s : DocState) : maintains well_keyed (Hardened.setState s).
Proof.
  intros [d w] Hw. unfold_methods. cbn in *.
  destruct (hd None (faults w)) as [f|]; cbn; [kept|].
  destruct (store w !! uuid d) as [old|]; cbn.
  - destruct (hd None (tl (faults w))); cbn; [kept|].
    eapply well_keyed_alter_state; [| |reflexivity|exact Hw]; [cbn; lia | done].
  - destruct (hd None (tl (faults w))); cbn; [kept|].
    eapply well_keyed_rekey with (id := uuid d); [| | | |exact Hw].
    + cbn. lia.
    + cbn. apply lookup_insert_eq.
    + done.
    + intros id2 Hne. cbn. by rewrite lookup_insert_ne.
Qed.

Lemma well_keyed_remove : maintains well_keyed Hardened.remove.
Proof.
  intros [d w] Hw. unfold_methods. cbn in *.
  destruct (hd None (faults w)) as [f|]; cbn; [kept|].
  assert (Hupd : ∀ w',
    (uuids w < uuids w')%nat →
    store w' = alter (apply_patch (mkPatch (Some removed) (Some (uuid_at (uuids w)))))
                 (uuid d) (store w) →
    well_keyed w').
  { intros w' Hn Hst. destruct (store w !! uuid d) as [old|] eqn:Hold.
    - eapply well_keyed_rekey
        with (id := uuid d)
             (r' := apply_patch (mkPatch (Some removed) (Some (uuid_at (uuids w)))) old);
        [exact Hn | | | |exact Hw].
      + rewrite Hst, lookup_alter. case_decide; [|done]. by rewrite Hold.
      + done.
      + intros id2 Hne. by rewrite Hst, lookup_alter_ne.
    - eapply well_keyed_same; [| |exact Hw]; [lia|].
      intros id. rewrite Hst, lookup_alter. case_decide; [|done].
      subst. by rewrite Hold. }
  destruct (hd None (tl (faults w))); cbn; apply Hupd; cbn; first [lia | done].
Qed.

Lemma well_keyed_save : maintains well_keyed Hardened.save.
Proof.
  unfold Hardened.save.
  apply maintains_try_catch.
  - repeat (first [ apply maintains_read | apply maintains_self
                  | apply well_keyed_downloadDocument | apply well_keyed_writeFile
                  | apply well_keyed_setState | apply well_keyed_populateMetadata
                  | apply well_keyed_publish
                  | apply maintains_bind; [|intros ?] ]).
  - intros e.
    repeat (first [ apply maintains_self | apply well_keyed_remove
                  | apply well_keyed_publish | apply maintains_throw
                  | apply maintains_bind; [|intros ?] ]).
Qed.

Lemma well_keyed_perform (op : Lifecycle.Op) : maintains well_keyed (Lifecycle.perform op).
Proof.
  destruct op; cbn.
  - apply well_keyed_populateMetadata.
  - apply well_keyed_update.
  - apply well_keyed_save.
  - apply well_keyed_load.
  - apply well_keyed_setState.
  - apply well_keyed_remove.
  - apply maintains_bind; [apply well_keyed_canBeEdited | intros; apply maintains_ret].
Qed.

Lemma well_keyed_serve_all (qs : list Lifecycle.Request) (w : World) :
  well_keyed w → well_keyed (Lifecycle.serve_all qs w).
Proof.
  revert w. induction qs as [|q qs IH]; intros w Hw; cbn; [done|].
  apply IH. unfold Lifecycle.serve.
  apply (well_keyed_perform (Lifecycle.req_op q) (Lifecycle.req_this q, Lifecycle.arrive q w)).
  cbn. eapply well_keyed_same; [| |exact Hw]; done.
Qed.

End UniqueKeys.

(** X9. Under the hypothesis that the uuid generator never repeats a
    value: start from an empty store and serve any sequence of requests of
    the hardened class; then every record of the store carries a key, that
    key is a value of the generator, and no two records carry the same
    key. *)
Theorem stored_keys_are_generated_and_distinct (P : Platform) :
  Inj (=) (=) uuid_at →
  ∀ (w0 : World) (qs : list Lifecycle.Request),
    store w0 = ∅ →
    (∀ id r, store (Lifecycle.serve_all qs w0) !! id = Some r →
       ∃ i, (i < uuids (Lifecycle.serve_all qs w0))%nat ∧ rec_key r = Some (uuid_at i))
    ∧ (∀ id1 id2 r1 r2,
         store (Lifecycle.serve_all qs w0) !! id1 = Some r1 →
         store (Lifecycle.serve_all qs w0) !! id2 = Some r2 →
         rec_key r1 = rec_key r2 → id1 = id2).
Proof.
  intros Hinj w0 qs Hempty.
  apply (well_keyed_serve_all Hinj qs w0).
  split; intros *; rewrite Hempty; by rewrite lookup_empty.
Qed.

Section UniqueKeysRun.
Import Demo Scenario Lifecycle.

Lemma stored_keys_are_generated_and_distinct_witness :
  ∃ i, (i < 3)%nat
       ∧ rec_key (mkFileRec (Some removed) (Some "2") "wg-1" None None None)
         = Some (pretty i).
Proof.
  apply (proj1 (stored_keys_are_generated_and_distinct platform pretty_nat_inj (online [])
                  [calm doc1 Save; calm (Hardened.new "doc-2" "wg-1" alice) Save;
                   calm doc1 Remove] eq_refl) "doc-1").
  vm_compute. reflexivity.
Defined.

End UniqueKeysRun.

(** ** The earlier version of [save] *)

(** X10. In every run of the earlier [save] the first call is the store
    lookup of [setState]; the download is attempted only right after a
    write of state [downloading] has returned; and nothing is ever
    published. *)
Theorem legacy_save_marks_downloading_first
  (P : Platform) (d : LegacyDocument) (w : World) :
  let evs := events_since w (world_of (Legacy.save (d, w))) in
  (∃ ok rest, evs = mkEvent (FilesGetByUuid (l_uuid d)) ok :: rest)
  ∧ (∀ pre ev post, evs = (pre ++ ev :: post)%list → is_download ev →
       ∃ wr, pre = [mkEvent (FilesGetByUuid (l_uuid d)) true; wr]
             ∧ writes_state downloading wr ∧ ev_ok wr = true)
  ∧ Forall (λ ev, ¬ is_publish ev) evs.
Proof.
  intros evs. subst evs.
  step_through.
  all: rewrite <- ?app_assoc; rewrite events_since_app; cbn -[alter insert delete lookup].
  all: split; [do 2 eexists; reflexivity|].
  all: split; [intros pre ev post Heq Hw; cut_trace Heq; cbn in Hw; simplify_eq;
               try done; by eexists|].
  all: repeat first [apply Forall_nil_2 | apply Forall_cons_2]; cbn; tauto.
Qed.

(** X11. When the download resolves with [data] and every store and
    file-system call goes through, the earlier [save] returns; the cache
    holds [data] at the path of the document, the object is in state
    [downloaded], and the store holds what its two [setState] calls leave
    (a record created on the way carries no key).  A [loadState] on any
    object with the same identifier and path then makes [isDownloaded]
    true. *)
Theorem legacy_save_makes_the_document_usable
  (P : Platform) (d d2 : LegacyDocument) (w : World) (data : list Byte.byte) :
  bytes_reply w (l_workGroup d) (l_uuid d) = Resolves data →
  faults w = [] →
  l_uuid d2 = l_uuid d → l_filePath d2 = l_filePath d →
  let x := Legacy.save (d, w) in
  result_of x = Returned tt
  ∧ cache (world_of x) = <[l_filePath d := data]> (cache w)
  ∧ l_state (this_of x) = Some downloaded
  ∧ store (world_of x)
    = alter (apply_patch (mkPatch (Some downloaded) None)) (l_uuid d)
        (legacy_marked downloading d (store w))
  ∧ (∀ r, store (world_of x) !! l_uuid d = Some r →
          rec_state r = Some downloaded
          ∧ (store w !! l_uuid d = None → rec_key r = None))
  ∧ Legacy.isDownloaded (this_of (Legacy.loadState (d2, world_of x))) (world_of x) = true.
Proof.
  intros Hdl Hfs Hid Hpath x. subst x. unfold legacy_marked. unfold_methods.
  cbn -[alter insert delete lookup]. rewrite Hfs. cbn -[alter insert delete lookup].
  destruct (store w !! l_uuid d) as [old|] eqn:Hold; cbn -[alter insert delete lookup];
    rewrite Hdl; cbn -[alter insert delete lookup].
  - rewrite lookup_alter. case_decide; [|done]. rewrite Hold.
    cbn -[alter insert delete lookup]. rewrite Hid.
    rewrite !lookup_alter. case_decide; [|done]. rewrite Hold.
    cbn -[alter insert delete lookup].
    unfold Legacy.isDownloaded, existsSync. cbn -[alter insert delete lookup].
    rewrite Hpath, lookup_insert_eq. repeat split; intros; by simplify_eq.
  - rewrite lookup_insert_eq. cbn -[alter insert delete lookup]. rewrite Hid.
    rewrite lookup_alter. case_decide; [|done]. rewrite lookup_insert_eq.
    cbn -[alter insert delete lookup].
    unfold Legacy.isDownloaded, existsSync. cbn -[alter insert delete lookup].
    rewrite Hpath, lookup_insert_eq. repeat split; intros; by simplify_eq.
Qed.

Section LegacyRuns.
Import Demo Cases.

Lemma legacy_save_makes_the_document_usable_witness :
  Legacy.isDownloaded
    (this_of (Legacy.loadState (legacy_doc1, world_of (Legacy.save (legacy_doc1, online [])))))
    (world_of (Legacy.save (legacy_doc1, online []))) = true.
Proof.
  apply (legacy_save_makes_the_document_usable platform legacy_doc1 legacy_doc1
           (online []) content eq_refl eq_refl eq_refl eq_refl).
Defined.

End LegacyRuns.

(** X12. When the download of the earlier [save] is rejected with [e]
    (after state [downloading] was stored): if the rollback goes through,
    [save] throws [e], the store is what [Files.removeByUuid] makes of it
    and no file is left at the path; if the store call of the rollback
    throws, [save] throws that error instead, the file is not deleted and
    the record stays in state [downloading].  In both cases the object
    still says [downloading]. *)
Theorem legacy_save_failure
  (P : Platform) (d : LegacyDocument) (w : World) (e : JsError) :
  bytes_reply w (l_workGroup d) (l_uuid d) = Rejects e →
  (faults w = [] →
     result_of (Legacy.save (d, w)) = Thrown e
     ∧ store (world_of (Legacy.save (d, w)))
       = removeByUuid_effect (l_uuid d) (legacy_marked downloading d (store w))
     ∧ cache (world_of (Legacy.save (d, w))) !! l_filePath d = None
     ∧ l_state (this_of (Legacy.save (d, w))) = Some downloading)
  ∧ (∀ f, faults w = [None; None; Some f] →
     result_of (Legacy.save (d, w)) = Thrown (fault_error f)
     ∧ store (world_of (Legacy.save (d, w))) = legacy_marked downloading d (store w)
     ∧ (∃ r, store (world_of (Legacy.save (d, w))) !! l_uuid d = Some r
             ∧ rec_state r = Some downloading)
     ∧ cache (world_of (Legacy.save (d, w))) = cache w
     ∧ l_state (this_of (Legacy.save (d, w))) = Some downloading).
Proof.
  intros Hdl. unfold legacy_marked. split.
  - intros Hfs. unfold_methods.
    cbn -[alter insert delete lookup]. rewrite Hfs. cbn -[alter insert delete lookup].
    destruct (store w !! l_uuid d) as [old|] eqn:Hold; cbn -[alter insert delete lookup];
      rewrite Hdl; cbn -[alter insert delete lookup];
      repeat split; apply lookup_delete_eq.
  - intros f Hfs. unfold_methods.
    cbn -[alter insert delete lookup]. rewrite Hfs. cbn -[alter insert delete lookup].
    destruct (store w !! l_uuid d) as [old|] eqn:Hold; cbn -[alter insert delete lookup];
      rewrite Hdl; cbn -[alter insert delete lookup]; repeat split.
    + eexists. split; [rewrite lookup_alter; case_decide; [by rewrite Hold | done] |]. done.
    + eexists. split; [by rewrite lookup_insert_eq |]. done.
Qed.

Section LegacyFailureRun.
Import Demo Cases.

Lemma legacy_save_failure_witness :
  result_of (Legacy.save (legacy_doc1,
                          offline unavailable [None; None; Some (mkFault disk_full None)]))
  = Thrown disk_full.
Proof.
  apply (proj2 (legacy_save_failure platform legacy_doc1
                  (offline unavailable [None; None; Some (mkFault disk_full None)])
                  unavailable eq_refl)
           (mkFault disk_full None) eq_refl).
Defined.

End LegacyFailureRun.

(** ** Editable extensions *)

(** X13. An object whose metadata was never populated is not editable;
    once [populateMetadata] has returned, the object is editable exactly
    when the extension that [getFileExtension] computes from the name of
    the node is one of [EDITABLE_EXTENSIONS]. *)
Theorem isEditableExtension_follows_the_node_name
  (P : Platform) (d : Document) (w : World) (n : Node) :
  (fileType d = None → Hardened.isEditableExtension d = false)
  ∧ (node_reply w (workGroup d) (uuid d) = Resolves n →
     (Hardened.isEditableExtension (this_of (Hardened.populateMetadata (d, w))) = true
      ↔ getFileExtension (node_name n) ∈ EDITABLE_EXTENSIONS)).
Proof.
  split.
  - intros Hnone. unfold Hardened.isEditableExtension. by rewrite Hnone.
  - intros Hnode. unfold_methods. cbn. rewrite Hnode. cbn.
    unfold Hardened.isEditableExtension. cbn. apply bool_decide_eq_true.
Qed.

Section EditableRun.
Import Demo Cases.

Lemma isEditableExtension_follows_the_node_name_witness :
  Hardened.isEditableExtension doc1 = false
  ∧ Hardened.isEditableExtension (this_of (Hardened.populateMetadata (doc1, online [])))
    = true.
Proof.
  pose proof (isEditableExtension_follows_the_node_name platform doc1 (online []) report)
    as [Hfresh Hpopulated].
  split.
  - apply Hfresh. reflexivity.
  - apply Hpopulated; [reflexivity|]. vm_compute. apply list_elem_of_here.
Defined.

End EditableRun.

(** ** The payload and the url paths *)

(** X14. The payload built from an object right after [populateMetadata]
    returned: its title is the name of the node and its key is the key the
    object held.  If the document was downloaded when the metadata were
    populated, its url and callback url are the base url followed by the
    download path and the tracking path of the document; if it was not,
    and the object had no paths yet, both are the base url followed by the
    text "undefined".  When signing is enabled the token is the signature
    of exactly that payload. *)
Theorem payload_after_populateMetadata
  (P : Platform) (d : Document) (w : World) (n : Node) :
  node_reply w (workGroup d) (uuid d) = Resolves n →
  let d' := this_of (Hardened.populateMetadata (d, w)) in
  let built := Hardened.buildDocumentserverPayload d' in
  pl_title (payload built) = Some (node_name n)
  ∧ pl_key (payload built) = key d
  ∧ (Hardened.isDownloaded d w = true →
       pl_url (payload built) = webserver_baseUrl ++ "/files/" ++ uuid d
       ∧ pl_callbackUrl (payload built)
         = webserver_baseUrl ++ "/api/documents/track?workGroupUuid=" ++ workGroup d
           ++ "&documentUuid=" ++ uuid d)
  ∧ (Hardened.isDownloaded d w = false →
     downloadUrlPath d = None → callbackUrlPath d = None →
       pl_url (payload built) = webserver_baseUrl ++ "undefined"
       ∧ pl_callbackUrl (payload built) = webserver_baseUrl ++ "undefined")
  ∧ (enable signature_browser = true →
       token built
       = Some (generateToken (payload built) (secret signature_browser)
                 (algorithm signature_browser) (expiresIn signature_browser)))
  ∧ (enable signature_browser = false → token built = None).
Proof.
  intros Hnode d' built. subst built d'. unfold_methods. cbn. rewrite Hnode. cbn.
  replace (Hardened.isDownloaded d (log (GetNode (workGroup d) (uuid d)) true w))
    with (Hardened.isDownloaded d w) by done.
  unfold Hardened.buildDocumentserverPayload.
  destruct (enable signature_browser); cbn; repeat split; try done.
  - by rewrite H.
  - by rewrite H.
  - by rewrite H, H0.
  - by rewrite H, H1.
  - by rewrite H.
  - by rewrite H.
  - by rewrite H, H0.
  - by rewrite H, H1.
Qed.

Section PayloadAfterPopulateRun.
Import Demo Cases.

Lemma payload_after_populateMetadata_witness :
  pl_url (payload (Hardened.buildDocumentserverPayload
                     (this_of (Hardened.populateMetadata (doc1, online [])))))
  = "http://backendundefined"
  ∧ pl_url (payload (Hardened.buildDocumentserverPayload
                       (this_of (Hardened.populateMetadata (fetched_doc, fetched_world)))))
    = "http://backend/files/doc-1".
Proof.
  split.
  - apply (payload_after_populateMetadata platform doc1 (online []) report eq_refl);
      reflexivity.
  - apply (payload_after_populateMetadata platform fetched_doc fetched_world report).
    + vm_compute. reflexivity.
    + vm_compute. reflexivity.
Defined.

End PayloadAfterPopulateRun.

(** ** [update] *)

(** X15. [update(url)] makes one call to the remote gateway and nothing
    else: it passes the work group, the url, and the name and parent the
    object holds, which are undefined as long as the metadata were not
    populated and those of the node afterwards; it throws what the call
    throws; it never changes the object, the store, the cache or the uuid
    generator (so it rotates no key). *)
Theorem update_sends_the_populated_name
  (P : Platform) (d : Document) (w : World) (url : string) :
  (∃ ok, events_since w (world_of (Hardened.update url (d, w)))
         = [mkEvent (CreateDocumentFromUrl (workGroup d) url (name d) (parent d)) ok])
  ∧ this_of (Hardened.update url (d, w)) = d
  ∧ (store (world_of (Hardened.update url (d, w))),
     cache (world_of (Hardened.update url (d, w))),
     uuids (world_of (Hardened.update url (d, w))))
    = (store w, cache w, uuids w)
  ∧ (∀ f, next_fault w = Some f →
          result_of (Hardened.update url (d, w)) = Thrown (fault_error f))
  ∧ (∀ n, node_reply w (workGroup d) (uuid d) = Resolves n →
       let x := Hardened.populateMetadata (d, w) in
       ∃ ok, events_since (world_of x) (world_of (Hardened.update url (this_of x, world_of x)))
             = [mkEvent (CreateDocumentFromUrl (node_workGroup n) url
                           (Some (node_name n)) (Some (node_parent n))) ok]).
Proof.
  unfold_methods. cbn. repeat split.
  - destruct (hd None (faults w)); cbn; eexists; by rewrite events_since_app.
  - by destruct (hd None (faults w)).
  - by destruct (hd None (faults w)).
  - intros f ->. done.
  - intros n ->. cbn.
    destruct (hd None (faults w)); cbn; eexists; by rewrite events_since_app.
Qed.

Section UpdateRun.
Import Demo Cases.

Lemma update_sends_the_populated_name_witness :
  result_of (Hardened.update "http://editor/result"
               (doc1, online [Some (mkFault unavailable None)]))
  = Thrown unavailable.
Proof.
  apply (proj1 (proj2 (proj2 (proj2
           (update_sends_the_populated_name platform doc1
              (online [Some (mkFault unavailable None)]) "http://editor/result"))))
           (mkFault unavailable None)).
  reflexivity.
Defined.

End UpdateRun.
